(** * valigator: composition of validators

    A shallow embedding of [validation.go] (plain flavour) and of its
    context-aware twin ([Validator] / [ContextValidator], [Func] /
    [ContextFunc], [New] / [NewContext], [Join] / [JoinContext]), with
    the properties of the composition algebra proved on the embedding.

    Conventions of the embedding.
    - A Go value that may be [nil] (a func value, an interface value, an
      [error]) is an [option]: [None] is [nil].
    - A caller-supplied check function may have effects of its own; it is
      a total state transformer over a world [W] chosen by the caller.
    - A method call through a nil interface value panics; [Validate]
      returns [None] for a panic and [Some (err, w)] for a normal return
      with error [err] in world [w]. *)

From stdpp Require Import base option list.

Set Default Proof Using "Type".
#[local] Set Warnings "-register-all".

(** ** Errors and [errors.Join] *)

Section Errors.
Context {E : Type}.

(** A non-nil [error]: either a value of the caller's own ([E] is the
    caller's type of failures), or the [*joinError] that the standard
    library's [errors.Join] allocates. The [errs] field of a join error
    only ever receives non-nil errors, so it is a list of error values. *)
Inductive errorValue : Type :=
| UserError (e : E)
| joinError (errs : list errorValue).

(** The Go interface type [error]; [None] is [nil], i.e. success. *)
Abbreviation error := (option errorValue).

(** [errors.Join] of the Go standard library (package [errors], file
    join.go), which both source files import and call:
<<
    func Join(errs ...error) error {
        n := 0
        for _, err := range errs { if err != nil { n++ } }
        if n == 0 { return nil }
        e := &joinError{errs: make([]error, 0, n)}
        for _, err := range errs { if err != nil { e.errs = append(e.errs, err) } }
        return e
    }
>>
    A single non-nil error is wrapped like any other number of them. *)
Definition errors_Join (errs : list error) : error :=
  let n := foldl (fun n err => match err with Some _ => S n | None => n end) 0 errs in
  match n with
  | 0 => None
  | S _ =>
      Some (joinError
              (foldl (fun e_errs err =>
                        match err with
                        | Some e => e_errs ++ [e]
                        | None => e_errs
                        end) [] errs))
  end.
End Errors.

Arguments errorValue : clear implicits.

Abbreviation error E := (option (errorValue E)).

(** ** The loops shared by the four [nonNil...] helpers

    [nonNilFunc], [nonNilValidators], [nonNilContextFunc] and
    [nonNilContextValidator] have one and the same body: start from an
    empty [squash], range over the input, [continue] on [nil], append
    otherwise. [squash_step] is that loop body. *)

Definition squash_step {A : Type} (squash : list (option A)) (v : option A)
  : list (option A) :=
  match v with
  | None => squash            (* continue *)
  | Some _ => squash ++ [v]   (* squash = append(squash, validators[i]) *)
  end.

(** ** The plain flavour: validation.go *)

Section Validation.
Context {T E W : Type}.

(** [func(T) error], when not nil. *)
Definition RawFunc : Type := T -> W -> error E * W.

(** The dynamic values a [Validator[T]] interface value can hold.
    [multiValidator] is the struct value (as [New] returns it),
    [ptrMultiValidator] a [*multiValidator[T]] pointing at a struct with
    the given field (as [Join] returns it), [UserValidator] any type of
    the caller's that implements the interface. *)
Inductive ValidatorImpl : Type :=
| Func (fn : option RawFunc)
| multiValidator (validators : list (option ValidatorImpl))
| ptrMultiValidator (validators : list (option ValidatorImpl))
| noOpValidator
| UserValidator (validate : T -> W -> error E * W).

(** The interface type [Validator[T]]; [None] is the nil interface. *)
Abbreviation Validator := (option ValidatorImpl).

(** [func (fn Func[T]) Validate(value T) error] *)
Definition Func_Validate (fn : option RawFunc) (value : T) (w : W)
  : error E * W :=
  match fn with
  | None => (None, w)
  | Some f => f value w
  end.

(** [func (noOpValidator[T]) Validate(T) error { return nil }] *)
Definition noOpValidator_Validate (_ : T) (w : W) : error E * W := (None, w).

(** One iteration of the loop of [multiValidator.Validate], given how to
    call [Validate] on a member: the state is the slice [errs] and the
    world, or [None] once a call has panicked. *)
Definition collect_step (call : ValidatorImpl -> W -> option (error E * W))
    (st : option (list (error E) * W)) (m : Validator)
  : option (list (error E) * W) :=
  match st with
  | None => None
  | Some (errs, w) =>
      match m with
      | None => None
      | Some d =>
          match call d w with
          | None => None
          | Some (err, w') =>
              Some (match err with
                    | Some _ => errs ++ [err]
                    | None => errs
                    end, w')
          end
      end
  end.

(** Dynamic dispatch of [Validate] on a non-nil interface value. Both
    the struct and the pointer to it run [multiValidator.Validate]. *)
Fixpoint Validate_impl (d : ValidatorImpl) (value : T) (w : W) {struct d}
  : option (error E * W) :=
  match d with
  | Func fn => Some (Func_Validate fn value w)
  | multiValidator vs | ptrMultiValidator vs =>
      match foldl (collect_step (fun d' w => Validate_impl d' value w))
                  (Some ([], w)) vs with
      | None => None
      | Some (errs, w') => Some (errors_Join errs, w')
      end
  | noOpValidator => Some (noOpValidator_Validate value w)
  | UserValidator validate => Some (validate value w)
  end.

(** [v.Validate(value)] for an interface value [v]. *)
Definition Validate (v : Validator) (value : T) (w : W)
  : option (error E * W) :=
  match v with
  | None => None
  | Some d => Validate_impl d value w
  end.

(** The loop of [multiValidator.Validate]: the failures collected in
    [errs] once every member has been ranged over. *)
Definition multiValidator_collect (validators : list Validator)
    (value : T) (w : W) : option (list (error E) * W) :=
  foldl (collect_step (fun d w => Validate_impl d value w))
        (Some ([], w)) validators.

(** [func (v multiValidator[T]) Validate(value T) error] *)
Definition multiValidator_Validate (validators : list Validator)
    (value : T) (w : W) : option (error E * W) :=
  match multiValidator_collect validators value w with
  | None => None
  | Some (errs, w') => Some (errors_Join errs, w')
  end.

(** [func NoOp[T any]() Validator[T]] *)
Definition NoOp : Validator := Some noOpValidator.

(** [func nonNilFunc(validators []T) []T] *)
Definition nonNilFunc (validators : list (option RawFunc))
  : list (option RawFunc) :=
  foldl squash_step [] validators.

(** [func nonNilValidators(validators []Validator[T]) []Validator[T]] *)
Definition nonNilValidators (validators : list Validator) : list Validator :=
  foldl squash_step [] validators.

(** [func New(validators ...func(T) error) Validator[T]]. The switch on
    [len(validators)] with its read of [validators[0]] is the match on
    the shape of the filtered slice. *)
Definition New (validators : list (option RawFunc)) : Validator :=
  let validators := nonNilFunc validators in
  match validators with
  | [] => NoOp
  | [fn] => Some (Func fn)
  | _ =>
      Some (multiValidator
              (foldl (fun mv fn => mv ++ [Some (Func fn)]) [] validators))
  end.

(** The body of the loop of [Join]: the type switch has a case for the
    struct type [multiValidator[T]] and a default, which every other
    dynamic type (the pointer type too) and the nil interface take. *)
Definition Join_step (mv : list Validator) (v : Validator) : list Validator :=
  match v with
  | Some (multiValidator vs) => mv ++ vs
  | _ => mv ++ [v]
  end.

(** [func Join(validators ...Validator[T]) Validator[T]]; the result is
    [&multiValidator[T]{...}], a pointer. *)
Definition Join (validators : list Validator) : Validator :=
  let validators := nonNilValidators validators in
  match validators with
  | [] => NoOp
  | [v] => v
  | _ => Some (ptrMultiValidator (foldl Join_step [] validators))
  end.

(** The member list of an Aggregate, whichever way it is held. *)
Definition members (v : Validator) : option (list Validator) :=
  match v with
  | Some (multiValidator vs) | Some (ptrMultiValidator vs) => Some vs
  | _ => None
  end.
End Validation.

Arguments RawFunc : clear implicits.
Arguments ValidatorImpl : clear implicits.

Abbreviation Validator T E W := (option (ValidatorImpl T E W)).

(** ** The context flavour: the twin file, with a [context.Context]
    threaded through every call *)

Section ValidationContext.
Context {Ctx T E W : Type}.

(** [func(context.Context, T) error], when not nil. *)
Definition RawContextFunc : Type := Ctx -> T -> W -> error E * W.

(** The dynamic values a [ContextValidator[T]] interface value can hold.
    No factory of this flavour returns a pointer. *)
Inductive ContextValidatorImpl : Type :=
| ContextFunc (fn : option RawContextFunc)
| multiContextValidator (validators : list (option ContextValidatorImpl))
| noOpContextValidator
| UserContextValidator (validate : Ctx -> T -> W -> error E * W).

(** The interface type [ContextValidator[T]]. *)
Abbreviation ContextValidator := (option ContextValidatorImpl).

(** [func (fn ContextFunc[T]) Validate(ctx context.Context, value T) error] *)
Definition ContextFunc_Validate (fn : option RawContextFunc)
    (ctx : Ctx) (value : T) (w : W) : error E * W :=
  match fn with
  | None => (None, w)
  | Some f => f ctx value w
  end.

(** [func (noOpContextValidator[T]) Validate(ctx, value) error { return nil }] *)
Definition noOpContextValidator_Validate (_ : Ctx) (_ : T) (w : W)
  : error E * W := (None, w).

(** One iteration of the loop of [multiContextValidator.Validate]. *)
Definition collectContext_step
    (call : ContextValidatorImpl -> W -> option (error E * W))
    (st : option (list (error E) * W)) (m : ContextValidator)
  : option (list (error E) * W) :=
  match st with
  | None => None
  | Some (errs, w) =>
      match m with
      | None => None
      | Some d =>
          match call d w with
          | None => None
          | Some (err, w') =>
              Some (match err with
                    | Some _ => errs ++ [err]
                    | None => errs
                    end, w')
          end
      end
  end.

(** Dynamic dispatch of [Validate] on a non-nil interface value. *)
Fixpoint ValidateContext_impl (d : ContextValidatorImpl)
    (ctx : Ctx) (value : T) (w : W) {struct d} : option (error E * W) :=
  match d with
  | ContextFunc fn => Some (ContextFunc_Validate fn ctx value w)
  | multiContextValidator vs =>
      match foldl (collectContext_step
                     (fun d' w => ValidateContext_impl d' ctx value w))
                  (Some ([], w)) vs with
      | None => None
      | Some (errs, w') => Some (errors_Join errs, w')
      end
  | noOpContextValidator => Some (noOpContextValidator_Validate ctx value w)
  | UserContextValidator validate => Some (validate ctx value w)
  end.

(** [v.Validate(ctx, value)] for an interface value [v]. *)
Definition ValidateContext (v : ContextValidator)
    (ctx : Ctx) (value : T) (w : W) : option (error E * W) :=
  match v with
  | None => None
  | Some d => ValidateContext_impl d ctx value w
  end.

(** The loop of [multiContextValidator.Validate]. *)
Definition multiContextValidator_collect (validators : list ContextValidator)
    (ctx : Ctx) (value : T) (w : W) : option (list (error E) * W) :=
  foldl (collectContext_step (fun d w => ValidateContext_impl d ctx value w))
        (Some ([], w)) validators.

(** [func (v multiContextValidator[T]) Validate(ctx, value) error] *)
Definition multiContextValidator_Validate (validators : list ContextValidator)
    (ctx : Ctx) (value : T) (w : W) : option (error E * W) :=
  match multiContextValidator_collect validators ctx value w with
  | None => None
  | Some (errs, w') => Some (errors_Join errs, w')
  end.

(** [func NoOpContext[T any]() ContextValidator[T]] *)
Definition NoOpContext : ContextValidator := Some noOpContextValidator.

(** [func nonNilContextFunc(validators []T) []T] *)
Definition nonNilContextFunc (validators : list (option RawContextFunc))
  : list (option RawContextFunc) :=
  foldl squash_step [] validators.

(** [func nonNilContextValidator(validators []ContextValidator[T])
    []ContextValidator[T]] *)
Definition nonNilContextValidator (validators : list ContextValidator)
  : list ContextValidator :=
  foldl squash_step [] validators.

(** [func NewContext(validators ...func(context.Context, T) error)
    ContextValidator[T]] *)
Definition NewContext (validators : list (option RawContextFunc))
  : ContextValidator :=
  let validators := nonNilContextFunc validators in
  match validators with
  | [] => NoOpContext
  | [fn] => Some (ContextFunc fn)
  | _ =>
      Some (multiContextValidator
              (foldl (fun mv fn => mv ++ [Some (ContextFunc fn)]) [] validators))
  end.

(** The three arms of the type switch in the loop of [JoinContext]. *)
Inductive JoinContext_case : Type :=
| case_nil
| case_multiContextValidator (validators : list ContextValidator)
| case_default.

(** [switch v := validators[i].(type)] *)
Definition JoinContext_switch (v : ContextValidator) : JoinContext_case :=
  match v with
  | None => case_nil
  | Some (multiContextValidator vs) => case_multiContextValidator vs
  | Some _ => case_default
  end.

(** The body of the loop of [JoinContext]. *)
Definition JoinContext_step (mv : list ContextValidator) (v : ContextValidator)
  : list ContextValidator :=
  match JoinContext_switch v with
  | case_nil => mv                              (* continue *)
  | case_multiContextValidator vs => mv ++ vs
  | case_default => mv ++ [v]
  end.

(** [func JoinContext(validators ...ContextValidator[T]) ContextValidator[T]];
    the result is the struct value, not a pointer. *)
Definition JoinContext (validators : list ContextValidator) : ContextValidator :=
  let validators := nonNilContextValidator validators in
  match validators with
  | [] => NoOpContext
  | [v] => v
  | _ => Some (multiContextValidator (foldl JoinContext_step [] validators))
  end.

(** The member list of an Aggregate. *)
Definition membersContext (v : ContextValidator)
  : option (list ContextValidator) :=
  match v with
  | Some (multiContextValidator vs) => Some vs
  | _ => None
  end.
End ValidationContext.

Arguments RawContextFunc : clear implicits.
Arguments ContextValidatorImpl : clear implicits.

Abbreviation ContextValidator Ctx T E W :=
  (option (ContextValidatorImpl Ctx T E W)).

(** ** Vocabulary of the specification

    What the properties below are stated with: the members of an
    Aggregate called one after the other, Aggregates without a nil member
    at any depth, and the checkers a client of the package can hold. *)

Section ValidationSpec.
Context {T E W : Type}.
Implicit Types (v m : Validator T E W) (vs : list (Validator T E W)).

(** Every checker of [vs] is called once on [value], from first to last,
    whatever the earlier ones returned; the result is the list of what
    they returned (successes included) and the world after the last. *)
Fixpoint call_each vs (value : T) (w : W) : option (list (error E) * W) :=
  match vs with
  | [] => Some ([], w)
  | m :: vs' =>
      match Validate m value w with
      | None => None
      | Some (r, w1) =>
          match call_each vs' value w1 with
          | None => None
          | Some (rs, w2) => Some (r :: rs, w2)
          end
      end
  end.

(** No nil member, at any depth. *)
Fixpoint nil_free_impl (d : ValidatorImpl T E W) : bool :=
  match d with
  | multiValidator vs | ptrMultiValidator vs =>
      forallb (fun m => match m with
                        | None => false
                        | Some d' => nil_free_impl d'
                        end) vs
  | _ => true
  end.

Definition nil_free v : bool :=
  match v with
  | None => false
  | Some d => nil_free_impl d
  end.

(** What one survivor contributes to the member list in [Join]. *)
Definition Join_splice v : list (Validator T E W) := Join_step [] v.

(** The checkers a client can hold. [multiValidator] and [noOpValidator]
    are unexported, so a client gets them from the factories only; it
    can write nil, convert a function to [Func], and implement the
    interface with a type of its own. *)
Inductive constructible : Validator T E W -> Prop :=
| constructible_nil : constructible None
| constructible_Func fn : constructible (Some (Func fn))
| constructible_User validate : constructible (Some (UserValidator validate))
| constructible_NoOp : constructible NoOp
| constructible_New fs : constructible (New fs)
| constructible_Join vs :
    (forall v, v ∈ vs -> constructible v) -> constructible (Join vs).
End ValidationSpec.

Section ValidationContextSpec.
Context {Ctx T E W : Type}.
Implicit Types (v m : ContextValidator Ctx T E W)
               (vs : list (ContextValidator Ctx T E W)).

(** As [call_each], with the same [ctx] handed to every member. *)
Fixpoint callContext_each vs (ctx : Ctx) (value : T) (w : W)
  : option (list (error E) * W) :=
  match vs with
  | [] => Some ([], w)
  | m :: vs' =>
      match ValidateContext m ctx value w with
      | None => None
      | Some (r, w1) =>
          match callContext_each vs' ctx value w1 with
          | None => None
          | Some (rs, w2) => Some (r :: rs, w2)
          end
      end
  end.

Fixpoint nil_freeContext_impl (d : ContextValidatorImpl Ctx T E W) : bool :=
  match d with
  | multiContextValidator vs =>
      forallb (fun m => match m with
                        | None => false
                        | Some d' => nil_freeContext_impl d'
                        end) vs
  | _ => true
  end.

Definition nil_freeContext v : bool :=
  match v with
  | None => false
  | Some d => nil_freeContext_impl d
  end.

(** What one survivor contributes to the member list in [JoinContext]. *)
Definition JoinContext_splice v : list (ContextValidator Ctx T E W) :=
  JoinContext_step [] v.

Inductive constructibleContext : ContextValidator Ctx T E W -> Prop :=
| constructibleContext_nil : constructibleContext None
| constructibleContext_Func fn : constructibleContext (Some (ContextFunc fn))
| constructibleContext_User validate :
    constructibleContext (Some (UserContextValidator validate))
| constructibleContext_NoOp : constructibleContext NoOpContext
| constructibleContext_New fs : constructibleContext (NewContext fs)
| constructibleContext_Join vs :
    (forall v, v ∈ vs -> constructibleContext v) ->
    constructibleContext (JoinContext vs).
End ValidationContextSpec.

(** ** Test doubles

    Check functions over [W := list (nat * T)], a log of calls: [probe i r]
    records that check [i] ran and on which value, then returns [r]. *)

Definition probe {T E : Type} (i : nat) (r : error E)
  : RawFunc T E (list (nat * T)) :=
  fun value log => (r, log ++ [(i, value)]).

Definition probeContext {Ctx T E : Type} (i : nat) (r : Ctx -> error E)
  : RawContextFunc Ctx T E (list (nat * T)) :=
  fun ctx value log => (r ctx, log ++ [(i, value)]).

(** Concrete checks for the examples: values, failures and [context]
    tokens are numbers and booleans ([true] is a cancelled token). *)

Definition Log : Type := list (nat * nat).

Definition pass (i : nat) : option (RawFunc nat nat Log) :=
  Some (probe i None).

Definition fail_with (i e : nat) : option (RawFunc nat nat Log) :=
  Some (probe i (Some (UserError e))).

Definition leaf (fn : option (RawFunc nat nat Log)) : Validator nat nat Log :=
  Some (Func fn).

Definition passContext (i : nat) : option (RawContextFunc bool nat nat Log) :=
  Some (probeContext i (fun _ => None)).

Definition failContext_with (i e : nat)
  : option (RawContextFunc bool nat nat Log) :=
  Some (probeContext i (fun _ => Some (UserError e))).

(** Fails with [e] when the token is cancelled, succeeds otherwise. *)
Definition cancelled_with (i e : nat)
  : option (RawContextFunc bool nat nat Log) :=
  Some (probeContext i (fun cancelled : bool =>
                          if cancelled then Some (UserError e) else None)).

Definition leafContext (fn : option (RawContextFunc bool nat nat Log))
  : ContextValidator bool nat nat Log :=
  Some (ContextFunc fn).

(** ** The test files

    The body of the subtests of [TestNew], [TestJoin] and
    [TestJoinContext]: build the checker, call it once on [testConfig{}],
    then look at its dynamic type. [requireEqual] is [true] when the two
    values match (the test logs) and [false] when the subtest is marked as
    failed; a subtest is [None] when it panics. *)

Definition testConfig : Type := unit.

(** [func requireEqual[T comparable](t *testing.T, wants, got T)] *)
Definition requireEqual {A : Type} `{EqDecision A} (wants got : A) : bool :=
  bool_decide (wants = got).

Section Tests.
Context {Ctx E W : Type}.

(** The closure run by [t.Run] in [TestNew]. *)
Definition TestNew_subtest (input : list (option (RawFunc testConfig E W)))
    (isNoOp : bool) (wantsLen : Z) (w : W) : option bool :=
  let validator := New input in
  match Validate validator tt w with
  | None => None
  | Some _ =>
      Some (match validator with
            | Some noOpValidator => requireEqual true isNoOp
            | Some (multiValidator validators) =>
                requireEqual wantsLen (Z.of_nat (length validators))
            | _ => requireEqual false isNoOp
            end)
  end.

(** The closure run by [t.Run] in [TestJoin]. *)
Definition TestJoin_subtest (input : list (Validator testConfig E W))
    (isNoOp : bool) (wantsLen : Z) (w : W) : option bool :=
  let validator := Join input in
  match Validate validator tt w with
  | None => None
  | Some _ =>
      Some (match validator with
            | Some noOpValidator => requireEqual true isNoOp
            | Some (multiValidator validators) =>
                requireEqual wantsLen (Z.of_nat (length validators))
            | _ => requireEqual false isNoOp
            end)
  end.

(** The closure run by [t.Run] in [TestJoinContext]; [background] is
    [context.Background()]. *)
Definition TestJoinContext_subtest (background : Ctx)
    (input : list (ContextValidator Ctx testConfig E W))
    (isNoOp : bool) (wantsLen : Z) (w : W) : option bool :=
  let validator := JoinContext input in
  match ValidateContext validator background tt w with
  | None => None
  | Some _ =>
      Some (match validator with
            | Some noOpContextValidator => requireEqual true isNoOp
            | Some (multiContextValidator validators) =>
                requireEqual wantsLen (Z.of_nat (length validators))
            | _ => requireEqual false isNoOp
            end)
  end.
End Tests.

(** * Properties *)

(** ** Loops as list functions *)

Lemma foldl_squash_step {A : Type} (l squash : list (option A)) :
  foldl squash_step squash l = squash ++ filter is_Some l.
Proof.
  revert squash; induction l as [|[a|] l IH]; intros squash; simpl.
  - by rewrite app_nil_r.
  - rewrite IH, filter_cons_True by eauto. by rewrite <- app_assoc.
  - rewrite IH, filter_cons_False; [done|]. by intros [? ?].
Qed.

Lemma filter_is_Some_Forall {A : Type} (l : list (option A)) :
  Forall is_Some (filter is_Some l).
Proof. apply Forall_forall. intros x Hx. by apply list_elem_of_filter in Hx as [? _]. Qed.

Lemma foldl_snoc_map {A B : Type} (f : A -> B) (l : list A) (acc : list B) :
  foldl (fun mv x => mv ++ [f x]) acc l = acc ++ (f <$> l).
Proof.
  revert acc; induction l as [|x l IH]; intros acc; simpl.
  - by rewrite app_nil_r.
  - by rewrite IH, <- app_assoc.
Qed.

Section ErrorsJoin.
Context {E : Type}.
Implicit Types (errs : list (error E)).

Lemma errors_Join_count errs n :
  foldl (fun n err => match err with Some _ => S n | None => n end) n errs
  = n + length (omap id errs).
Proof.
  revert n; induction errs as [|[e|] errs IH]; intros n; cbn.
  - lia.
  - rewrite IH. lia.
  - apply IH.
Qed.

Lemma errors_Join_gather errs (acc : list (errorValue E)) :
  foldl (fun e_errs err => match err with
                           | Some e => e_errs ++ [e]
                           | None => e_errs
                           end) acc errs
  = acc ++ omap id errs.
Proof.
  revert acc; induction errs as [|[e|] errs IH]; intros acc; simpl.
  - by rewrite app_nil_r.
  - by rewrite IH, <- app_assoc.
  - by rewrite IH.
Qed.

(** [errors.Join] discards the nil errors and wraps what is left, unless
    nothing is left. *)
Lemma errors_Join_spec errs :
  errors_Join errs
  = match omap id errs with
    | [] => None
    | es => Some (joinError es)
    end.
Proof.
  unfold errors_Join. rewrite errors_Join_count, errors_Join_gather.
  simpl. by destruct (omap id errs).
Qed.
End ErrorsJoin.

(** ** The plain flavour *)

Section ValidationFacts.
Context {T E W : Type}.
Implicit Types (v m : Validator T E W) (vs : list (Validator T E W))
               (d : ValidatorImpl T E W) (value : T) (w : W)
               (rs errs : list (error E)).

Lemma nonNilFunc_filter (fs : list (option (RawFunc T E W))) :
  nonNilFunc fs = filter is_Some fs.
Proof. unfold nonNilFunc. by rewrite foldl_squash_step. Qed.

Lemma nonNilValidators_filter vs : nonNilValidators vs = filter is_Some vs.
Proof. unfold nonNilValidators. by rewrite foldl_squash_step. Qed.

Lemma Validate_multiValidator vs value w :
  Validate (Some (multiValidator vs)) value w = multiValidator_Validate vs value w.
Proof. reflexivity. Qed.

Lemma Validate_ptrMultiValidator vs value w :
  Validate (Some (ptrMultiValidator vs)) value w = multiValidator_Validate vs value w.
Proof. reflexivity. Qed.

(** An induction principle that reaches the members of an Aggregate. *)
Lemma ValidatorImpl_members_ind (P : ValidatorImpl T E W -> Prop) :
  (forall fn, P (Func fn)) ->
  (forall vs, Forall (fun m => forall d, m = Some d -> P d) vs ->
              P (multiValidator vs)) ->
  (forall vs, Forall (fun m => forall d, m = Some d -> P d) vs ->
              P (ptrMultiValidator vs)) ->
  P noOpValidator ->
  (forall validate, P (UserValidator validate)) ->
  forall d, P d.
Proof.
  intros HFunc Hmulti Hptr HnoOp HUser.
  fix IH 1. intros [fn|vs|vs| |validate]; [apply HFunc| | |apply HnoOp|apply HUser].
  - apply Hmulti. induction vs as [|[d|] vs IHvs]; constructor;
      [intros d' [= <-]; apply IH|exact IHvs|intros d' [=]|exact IHvs].
  - apply Hptr. induction vs as [|[d|] vs IHvs]; constructor;
      [intros d' [= <-]; apply IH|exact IHvs|intros d' [=]|exact IHvs].
Qed.

Lemma collect_step_panicked vs (call : ValidatorImpl T E W -> W -> option (error E * W)) :
  foldl (collect_step call) None vs = None.
Proof. by induction vs. Qed.

(** The loop of [multiValidator.Validate] calls each member in turn and
    keeps the non-nil results. *)
Lemma collect_call_each vs value w errs :
  foldl (collect_step (fun d w => Validate_impl d value w)) (Some (errs, w)) vs
  = match call_each vs value w with
    | None => None
    | Some (rs, w') => Some (errs ++ filter is_Some rs, w')
    end.
Proof.
  revert w errs; induction vs as [|m vs IH]; intros w errs; simpl.
  - by rewrite app_nil_r.
  - destruct m as [d|]; simpl; [|apply collect_step_panicked].
    destruct (Validate_impl d value w) as [[r w1]|]; [|apply collect_step_panicked].
    rewrite IH. destruct (call_each vs value w1) as [[rs w2]|]; [|done].
    destruct r as [e|].
    + rewrite filter_cons_True by eauto. by rewrite <- app_assoc.
    + rewrite filter_cons_False; [done|]. by intros [? ?].
Qed.

Lemma multiValidator_collect_call_each vs value w :
  multiValidator_collect vs value w
  = match call_each vs value w with
    | None => None
    | Some (rs, w') => Some (filter is_Some rs, w')
    end.
Proof. unfold multiValidator_collect. by rewrite collect_call_each. Qed.

Lemma call_each_length vs value w rs w' :
  call_each vs value w = Some (rs, w') -> length rs = length vs.
Proof.
  revert w rs; induction vs as [|m vs IH]; intros w rs; simpl.
  - by intros [= <- _].
  - destruct (Validate m value w) as [[r w1]|]; [|done].
    destruct (call_each vs value w1) as [[rs' w2]|] eqn:Hrest; [|done].
    intros [= <- <-]. simpl. f_equal. eauto.
Qed.

(** [call_each] by positions: [ws !! i] is the world in which member [i]
    is called, [rs !! i] what it returns. *)
Lemma call_each_lookup vs value w rs w' :
  call_each vs value w = Some (rs, w') ->
  exists ws : list W,
    length ws = S (length vs) /\ ws !! 0 = Some w /\ ws !! length vs = Some w' /\
    forall i m, vs !! i = Some m ->
      exists wi r wi',
        ws !! i = Some wi /\ rs !! i = Some r /\ ws !! S i = Some wi' /\
        Validate m value wi = Some (r, wi').
Proof.
  revert w rs; induction vs as [|m vs IH]; intros w rs; simpl.
  - intros [= <- <-]. exists [w]. by repeat split.
  - destruct (Validate m value w) as [[r w1]|] eqn:Hm; [|done].
    destruct (call_each vs value w1) as [[rs' w2]|] eqn:Hrest; [|done].
    intros [= <- <-]. destruct (IH _ _ Hrest) as (ws & Hlen & H0 & Hlast & Hall).
    exists (w :: ws). repeat split; simpl; try done.
    + by rewrite Hlen.
    + intros [|i] m' Hi; simpl in *.
      * injection Hi as <-. exists w, r, w1. by rewrite H0.
      * destruct (Hall i m' Hi) as (wi & r' & wi' & ? & ? & ? & ?).
        by exists wi, r', wi'.
Qed.

(** Checking an Aggregate without nil members never panics. *)
Lemma Validate_impl_total d :
  nil_free_impl d = true -> forall value w, is_Some (Validate_impl d value w).
Proof.
  induction d as [fn|vs IH|vs IH| |validate] using ValidatorImpl_members_ind;
    intros Hfree value w; simpl; try by eexists.
  all: assert (Hloop : forall errs w0,
         is_Some (foldl (collect_step (fun d' w1 => Validate_impl d' value w1))
                        (Some (errs, w0)) vs));
    [|destruct (Hloop [] w) as [[errs w'] ->]; by eexists].
  all: simpl in Hfree; induction IH as [|m vs Hm _ IHvs]; intros errs w0;
    simpl; [by eexists|].
  all: apply andb_prop in Hfree as [Hm' Hvs]; destruct m as [d|]; [|done].
  all: destruct (Hm d eq_refl Hm' value w0) as [[r w1] Hr]; simpl; rewrite Hr.
  all: by apply IHvs.
Qed.

Lemma call_each_total vs value w :
  forallb nil_free vs = true -> is_Some (call_each vs value w).
Proof.
  revert w; induction vs as [|m vs IH]; intros w Hfree; simpl; [by eexists|].
  apply andb_prop in Hfree as [Hm Hvs]. destruct m as [d|]; [|done]. simpl.
  destruct (Validate_impl_total d Hm value w) as [[r w1] ->].
  destruct (IH w1 Hvs) as [[rs w2] ->]. by eexists.
Qed.
End ValidationFacts.

(** ** The context flavour *)

Section ValidationContextFacts.
Context {Ctx T E W : Type}.
Implicit Types (v m : ContextValidator Ctx T E W)
               (vs : list (ContextValidator Ctx T E W))
               (d : ContextValidatorImpl Ctx T E W)
               (ctx : Ctx) (value : T) (w : W) (rs errs : list (error E)).

Lemma nonNilContextFunc_filter (fs : list (option (RawContextFunc Ctx T E W))) :
  nonNilContextFunc fs = filter is_Some fs.
Proof. unfold nonNilContextFunc. by rewrite foldl_squash_step. Qed.

Lemma nonNilContextValidator_filter vs :
  nonNilContextValidator vs = filter is_Some vs.
Proof. unfold nonNilContextValidator. by rewrite foldl_squash_step. Qed.

Lemma ValidateContext_multiContextValidator vs ctx value w :
  ValidateContext (Some (multiContextValidator vs)) ctx value w
  = multiContextValidator_Validate vs ctx value w.
Proof. reflexivity. Qed.

Lemma ContextValidatorImpl_members_ind (P : ContextValidatorImpl Ctx T E W -> Prop) :
  (forall fn, P (ContextFunc fn)) ->
  (forall vs, Forall (fun m => forall d, m = Some d -> P d) vs ->
              P (multiContextValidator vs)) ->
  P noOpContextValidator ->
  (forall validate, P (UserContextValidator validate)) ->
  forall d, P d.
Proof.
  intros HFunc Hmulti HnoOp HUser.
  fix IH 1. intros [fn|vs| |validate]; [apply HFunc| |apply HnoOp|apply HUser].
  apply Hmulti. induction vs as [|[d|] vs IHvs]; constructor;
    [intros d' [= <-]; apply IH|exact IHvs|intros d' [=]|exact IHvs].
Qed.

Lemma collectContext_step_panicked vs
    (call : ContextValidatorImpl Ctx T E W -> W -> option (error E * W)) :
  foldl (collectContext_step call) None vs = None.
Proof. by induction vs. Qed.

Lemma collectContext_call_each vs ctx value w errs :
  foldl (collectContext_step (fun d w => ValidateContext_impl d ctx value w))
        (Some (errs, w)) vs
  = match callContext_each vs ctx value w with
    | None => None
    | Some (rs, w') => Some (errs ++ filter is_Some rs, w')
    end.
Proof.
  revert w errs; induction vs as [|m vs IH]; intros w errs; simpl.
  - by rewrite app_nil_r.
  - destruct m as [d|]; simpl; [|apply collectContext_step_panicked].
    destruct (ValidateContext_impl d ctx value w) as [[r w1]|];
      [|apply collectContext_step_panicked].
    rewrite IH. destruct (callContext_each vs ctx value w1) as [[rs w2]|]; [|done].
    destruct r as [e|].
    + rewrite filter_cons_True by eauto. by rewrite <- app_assoc.
    + rewrite filter_cons_False; [done|]. by intros [? ?].
Qed.

Lemma multiContextValidator_collect_call_each vs ctx value w :
  multiContextValidator_collect vs ctx value w
  = match callContext_each vs ctx value w with
    | None => None
    | Some (rs, w') => Some (filter is_Some rs, w')
    end.
Proof. unfold multiContextValidator_collect. by rewrite collectContext_call_each. Qed.

Lemma callContext_each_length vs ctx value w rs w' :
  callContext_each vs ctx value w = Some (rs, w') -> length rs = length vs.
Proof.
  revert w rs; induction vs as [|m vs IH]; intros w rs; simpl.
  - by intros [= <- _].
  - destruct (ValidateContext m ctx value w) as [[r w1]|]; [|done].
    destruct (callContext_each vs ctx value w1) as [[rs' w2]|] eqn:Hrest; [|done].
    intros [= <- <-]. simpl. f_equal. eauto.
Qed.

Lemma callContext_each_lookup vs ctx value w rs w' :
  callContext_each vs ctx value w = Some (rs, w') ->
  exists ws : list W,
    length ws = S (length vs) /\ ws !! 0 = Some w /\ ws !! length vs = Some w' /\
    forall i m, vs !! i = Some m ->
      exists wi r wi',
        ws !! i = Some wi /\ rs !! i = Some r /\ ws !! S i = Some wi' /\
        ValidateContext m ctx value wi = Some (r, wi').
Proof.
  revert w rs; induction vs as [|m vs IH]; intros w rs; simpl.
  - intros [= <- <-]. exists [w]. by repeat split.
  - destruct (ValidateContext m ctx value w) as [[r w1]|] eqn:Hm; [|done].
    destruct (callContext_each vs ctx value w1) as [[rs' w2]|] eqn:Hrest; [|done].
    intros [= <- <-]. destruct (IH _ _ Hrest) as (ws & Hlen & H0 & Hlast & Hall).
    exists (w :: ws). repeat split; simpl; try done.
    + by rewrite Hlen.
    + intros [|i] m' Hi; simpl in *.
      * injection Hi as <-. exists w, r, w1. by rewrite H0.
      * destruct (Hall i m' Hi) as (wi & r' & wi' & ? & ? & ? & ?).
        by exists wi, r', wi'.
Qed.

Lemma ValidateContext_impl_total d :
  nil_freeContext_impl d = true ->
  forall ctx value w, is_Some (ValidateContext_impl d ctx value w).
Proof.
  induction d as [fn|vs IH| |validate] using ContextValidatorImpl_members_ind;
    intros Hfree ctx value w; simpl; try by eexists.
  assert (Hloop : forall errs w0,
         is_Some (foldl (collectContext_step
                           (fun d' w1 => ValidateContext_impl d' ctx value w1))
                        (Some (errs, w0)) vs));
    [|destruct (Hloop [] w) as [[errs w'] ->]; by eexists].
  simpl in Hfree; induction IH as [|m vs Hm _ IHvs]; intros errs w0;
    simpl; [by eexists|].
  apply andb_prop in Hfree as [Hm' Hvs]; destruct m as [d|]; [|done].
  destruct (Hm d eq_refl Hm' ctx value w0) as [[r w1] Hr]; simpl; rewrite Hr.
  by apply IHvs.
Qed.

Lemma callContext_each_total vs ctx value w :
  forallb nil_freeContext vs = true -> is_Some (callContext_each vs ctx value w).
Proof.
  revert w; induction vs as [|m vs IH]; intros w Hfree; simpl; [by eexists|].
  apply andb_prop in Hfree as [Hm Hvs]. destruct m as [d|]; [|done]. simpl.
  destruct (ValidateContext_impl_total d Hm ctx value w) as [[r w1] ->].
  destruct (IH w1 Hvs) as [[rs w2] ->]. by eexists.
Qed.
End ValidationContextFacts.

(** ** The factories *)

Section Factories.
Context {Ctx T E W : Type}.

Lemma New_unfold (fs : list (option (RawFunc T E W))) :
  New fs = match filter is_Some fs with
           | [] => NoOp
           | [fn] => Some (Func fn)
           | live => Some (multiValidator ((fun fn => Some (Func fn)) <$> live))
           end.
Proof.
  unfold New. rewrite nonNilFunc_filter.
  destruct (filter is_Some fs) as [|fn [|fn' live]]; try done.
  by rewrite foldl_snoc_map.
Qed.

Lemma NewContext_unfold (fs : list (option (RawContextFunc Ctx T E W))) :
  NewContext fs
  = match filter is_Some fs with
    | [] => NoOpContext
    | [fn] => Some (ContextFunc fn)
    | live => Some (multiContextValidator ((fun fn => Some (ContextFunc fn)) <$> live))
    end.
Proof.
  unfold NewContext. rewrite nonNilContextFunc_filter.
  destruct (filter is_Some fs) as [|fn [|fn' live]]; try done.
  by rewrite foldl_snoc_map.
Qed.

Lemma foldl_Join_step (l mv : list (Validator T E W)) :
  foldl Join_step mv l = mv ++ (l ≫= Join_splice).
Proof.
  revert mv; induction l as [|v l IH]; intros mv; simpl.
  - by rewrite app_nil_r.
  - rewrite IH. unfold Join_splice at 2.
    destruct v as [[]|]; simpl; by rewrite <- app_assoc.
Qed.

Lemma foldl_JoinContext_step (l mv : list (ContextValidator Ctx T E W)) :
  foldl JoinContext_step mv l = mv ++ (l ≫= JoinContext_splice).
Proof.
  revert mv; induction l as [|v l IH]; intros mv; simpl.
  - by rewrite app_nil_r.
  - rewrite IH. unfold JoinContext_splice at 2. unfold JoinContext_step.
    destruct v as [[]|]; simpl; by rewrite <- ?app_assoc.
Qed.

Lemma Join_unfold (vs : list (Validator T E W)) :
  Join vs = match filter is_Some vs with
            | [] => NoOp
            | [v] => v
            | live => Some (ptrMultiValidator (live ≫= Join_splice))
            end.
Proof.
  unfold Join. rewrite nonNilValidators_filter.
  destruct (filter is_Some vs) as [|v [|v' live]]; try done.
  by rewrite foldl_Join_step.
Qed.

Lemma JoinContext_unfold (vs : list (ContextValidator Ctx T E W)) :
  JoinContext vs = match filter is_Some vs with
                   | [] => NoOpContext
                   | [v] => v
                   | live => Some (multiContextValidator (live ≫= JoinContext_splice))
                   end.
Proof.
  unfold JoinContext. rewrite nonNilContextValidator_filter.
  destruct (filter is_Some vs) as [|v [|v' live]]; try done.
  by rewrite foldl_JoinContext_step.
Qed.

(** C3. [New] and [NewContext] drop the nil functions, keeping the others
    in order; with [k] functions left, [k = 0] gives the No-op, [k = 1] a
    Leaf around the one function (no Aggregate of one), and [k >= 2] an
    Aggregate of exactly [k] members, the Leaves of the functions left,
    in order. *)
Theorem New_shape :
  (forall fs : list (option (RawFunc T E W)),
     let live := filter is_Some fs in
     nonNilFunc fs = live /\
     (length live = 0 -> New fs = NoOp) /\
     (length live = 1 ->
      exists f, live = [Some f] /\ New fs = Some (Func (Some f))) /\
     (2 <= length live ->
      exists ms, New fs = Some (multiValidator ms) /\
                 length ms = length live /\
                 ms = (fun fn => Some (Func fn)) <$> live)) /\
  (forall fs : list (option (RawContextFunc Ctx T E W)),
     let live := filter is_Some fs in
     nonNilContextFunc fs = live /\
     (length live = 0 -> NewContext fs = NoOpContext) /\
     (length live = 1 ->
      exists f, live = [Some f] /\ NewContext fs = Some (ContextFunc (Some f))) /\
     (2 <= length live ->
      exists ms, NewContext fs = Some (multiContextValidator ms) /\
                 length ms = length live /\
                 ms = (fun fn => Some (ContextFunc fn)) <$> live)).
Proof.
  split; intros fs live.
  - split; [apply nonNilFunc_filter|]. rewrite New_unfold. fold live.
    pose proof (filter_is_Some_Forall fs) as Hlive. fold live in Hlive.
    destruct live as [|fn [|fn' live]]; simpl; (split; [|split]); try done; try lia.
    + intros _. apply Forall_cons in Hlive as [[f ->] _]. by exists f.
    + intros _. eexists; split; [done|]. split; [|done].
      simpl. do 2 f_equal. apply length_fmap.
  - split; [apply nonNilContextFunc_filter|]. rewrite NewContext_unfold. fold live.
    pose proof (filter_is_Some_Forall fs) as Hlive. fold live in Hlive.
    destruct live as [|fn [|fn' live]]; simpl; (split; [|split]); try done; try lia.
    + intros _. apply Forall_cons in Hlive as [[f ->] _]. by exists f.
    + intros _. eexists; split; [done|]. split; [|done].
      simpl. do 2 f_equal. apply length_fmap.
Qed.
End Factories.

Lemma New_shape_witness :
  (New [None; None; None] = (NoOp : Validator nat nat Log) /\
   New [None; pass 1; None] = leaf (pass 1) /\
   New [pass 1; None; fail_with 2 7; pass 3]
   = Some (multiValidator [leaf (pass 1); leaf (fail_with 2 7); leaf (pass 3)])) /\
  (NewContext [None; None]
   = (NoOpContext : ContextValidator bool nat nat Log) /\
   NewContext [None; passContext 1; None] = leafContext (passContext 1) /\
   NewContext [cancelled_with 1 9; None; passContext 2]
   = Some (multiContextValidator
             [leafContext (cancelled_with 1 9); leafContext (passContext 2)])).
Proof.
  destruct (@New_shape bool nat nat Log) as [HNew HNewContext].
  split; split_and!.
  - by apply (HNew [None; None; None]).
  - destruct (HNew [None; pass 1; None]) as (_ & _ & Hone & _).
    destruct (Hone eq_refl) as (f & [= <-] & ->). reflexivity.
  - destruct (HNew [pass 1; None; fail_with 2 7; pass 3]) as (_ & _ & _ & Hmany).
    destruct Hmany as (ms & -> & _ & ->); [vm_compute; lia|reflexivity].
  - by apply (HNewContext [None; None]).
  - destruct (HNewContext [None; passContext 1; None]) as (_ & _ & Hone & _).
    destruct (Hone eq_refl) as (f & [= <-] & ->). reflexivity.
  - destruct (HNewContext [cancelled_with 1 9; None; passContext 2])
      as (_ & _ & _ & Hmany).
    destruct Hmany as (ms & -> & _ & ->); [vm_compute; lia|reflexivity].
Defined.

Section Laws.
Context {Ctx T E W : Type}.

(** C6. [Validate] on a Leaf with a nil function is a success, whatever
    the value (and the token); on a Leaf with function [f] it is the call
    of [f] on the same arguments, its result handed back as it is. *)
Theorem Leaf_Validate :
  (forall (value : T) (w : W),
     Validate (Some (Func None)) value w = Some (@None (errorValue E), w)) /\
  (forall (f : RawFunc T E W) value w,
     Validate (Some (Func (Some f))) value w = Some (f value w)) /\
  (forall (ctx : Ctx) (value : T) (w : W),
     ValidateContext (Some (ContextFunc None)) ctx value w
     = Some (@None (errorValue E), w)) /\
  (forall (f : RawContextFunc Ctx T E W) ctx value w,
     ValidateContext (Some (ContextFunc (Some f))) ctx value w
     = Some (f ctx value w)).
Proof. by split_and!. Qed.

(** C7. When exactly one checker of the input is not nil, [Join] and
    [JoinContext] return that checker, the very value that was passed. *)
Theorem Join_single_survivor :
  (forall (vs : list (Validator T E W)) v,
     filter is_Some vs = [v] -> Join vs = v) /\
  (forall (vs : list (ContextValidator Ctx T E W)) v,
     filter is_Some vs = [v] -> JoinContext vs = v).
Proof.
  split; intros vs v Hlive.
  - by rewrite Join_unfold, Hlive.
  - by rewrite JoinContext_unfold, Hlive.
Qed.

(** C10. What [nonNilContextValidator] returns holds no nil interface
    value, so the type switch in the loop of [JoinContext], which ranges
    over that slice, never selects its nil case. *)
Theorem JoinContext_nil_case_unreachable (vs : list (ContextValidator Ctx T E W)) :
  Forall (fun v => v <> None /\ JoinContext_switch v <> case_nil)
         (nonNilContextValidator vs).
Proof.
  rewrite nonNilContextValidator_filter.
  eapply Forall_impl; [apply filter_is_Some_Forall|].
  intros v [d ->]. by destruct d.
Qed.
End Laws.

Lemma Join_single_survivor_witness :
  Join [None; leaf (pass 1); None] = leaf (pass 1) /\
  JoinContext [None; None; leafContext (passContext 1)]
  = leafContext (passContext 1).
Proof.
  destruct (@Join_single_survivor bool nat nat Log) as [HJoin HJoinContext].
  split; [apply HJoin|apply HJoinContext]; reflexivity.
Defined.

(** ** Checking an Aggregate *)

Section Aggregates.
Context {Ctx T E W : Type}.

Lemma filter_is_Some_all_None {A : Type} (rs : list (option A)) :
  Forall (fun r => r = None) rs -> filter is_Some rs = [].
Proof.
  induction 1 as [|r rs -> _ IH]; [done|].
  rewrite filter_cons_False; [done|]. by intros [? ?].
Qed.

Lemma multiValidator_Validate_call_each (vs : list (Validator T E W)) value w :
  multiValidator_Validate vs value w
  = match call_each vs value w with
    | None => None
    | Some (rs, w') => Some (errors_Join (filter is_Some rs), w')
    end.
Proof.
  unfold multiValidator_Validate. rewrite multiValidator_collect_call_each.
  by destruct (call_each vs value w) as [[rs w']|].
Qed.

Lemma multiContextValidator_Validate_call_each
    (vs : list (ContextValidator Ctx T E W)) ctx value w :
  multiContextValidator_Validate vs ctx value w
  = match callContext_each vs ctx value w with
    | None => None
    | Some (rs, w') => Some (errors_Join (filter is_Some rs), w')
    end.
Proof.
  unfold multiContextValidator_Validate.
  rewrite multiContextValidator_collect_call_each.
  by destruct (callContext_each vs ctx value w) as [[rs w']|].
Qed.

(** C4. Checking an Aggregate without nil members on [value] from world
    [w] calls member [i] on [value] in the world [ws !! i] that member
    [i - 1] left, for every position [i] of the member list and whatever
    the earlier members returned; [rs !! i] is what member [i] returns.
    The failures collected are the non-nil results of [rs], in member
    order, and they are what is handed to [errors.Join]. The context
    flavour hands the same [ctx] to every member. *)
Theorem Aggregate_calls_every_member :
  (forall (vs : list (Validator T E W)) value w,
     forallb nil_free vs = true ->
     exists (rs : list (error E)) (ws : list W) (w' : W),
       length rs = length vs /\ length ws = S (length vs) /\
       ws !! 0 = Some w /\ ws !! length vs = Some w' /\
       (forall i m, vs !! i = Some m ->
          exists wi r wi',
            ws !! i = Some wi /\ rs !! i = Some r /\ ws !! S i = Some wi' /\
            Validate m value wi = Some (r, wi')) /\
       multiValidator_collect vs value w = Some (filter is_Some rs, w') /\
       Validate (Some (multiValidator vs)) value w
       = Some (errors_Join (filter is_Some rs), w') /\
       Validate (Some (ptrMultiValidator vs)) value w
       = Some (errors_Join (filter is_Some rs), w')) /\
  (forall (vs : list (ContextValidator Ctx T E W)) ctx value w,
     forallb nil_freeContext vs = true ->
     exists (rs : list (error E)) (ws : list W) (w' : W),
       length rs = length vs /\ length ws = S (length vs) /\
       ws !! 0 = Some w /\ ws !! length vs = Some w' /\
       (forall i m, vs !! i = Some m ->
          exists wi r wi',
            ws !! i = Some wi /\ rs !! i = Some r /\ ws !! S i = Some wi' /\
            ValidateContext m ctx value wi = Some (r, wi')) /\
       multiContextValidator_collect vs ctx value w
       = Some (filter is_Some rs, w') /\
       ValidateContext (Some (multiContextValidator vs)) ctx value w
       = Some (errors_Join (filter is_Some rs), w')).
Proof.
  split.
  - intros vs value w Hfree.
    destruct (call_each_total vs value w Hfree) as [[rs w'] Hrun].
    destruct (call_each_lookup _ _ _ _ _ Hrun) as (ws & Hlen & H0 & Hlast & Hall).
    exists rs, ws, w'. split_and!; try done.
    + by eapply call_each_length.
    + by rewrite multiValidator_collect_call_each, Hrun.
    + by rewrite Validate_multiValidator, multiValidator_Validate_call_each, Hrun.
    + by rewrite Validate_ptrMultiValidator, multiValidator_Validate_call_each, Hrun.
  - intros vs ctx value w Hfree.
    destruct (callContext_each_total vs ctx value w Hfree) as [[rs w'] Hrun].
    destruct (callContext_each_lookup _ _ _ _ _ _ Hrun)
      as (ws & Hlen & H0 & Hlast & Hall).
    exists rs, ws, w'. split_and!; try done.
    + by eapply callContext_each_length.
    + by rewrite multiContextValidator_collect_call_each, Hrun.
    + by rewrite ValidateContext_multiContextValidator,
        multiContextValidator_Validate_call_each, Hrun.
Qed.

(** C5, as the code has it. When exactly one member returns a failure and
    that failure is an error value [e] of the caller's, the outcome of
    checking the Aggregate is the join error that [errors.Join] allocates
    around it, with [e] as its only constituent: [e] is kept for
    inspection but the outcome is not [e] itself. *)
Theorem Aggregate_single_failure :
  (forall (vs : list (Validator T E W)) value w rs w' (e : E),
     call_each vs value w = Some (rs, w') ->
     filter is_Some rs = [Some (UserError e)] ->
     Validate (Some (multiValidator vs)) value w
     = Some (Some (joinError [UserError e]), w') /\
     Validate (Some (ptrMultiValidator vs)) value w
     = Some (Some (joinError [UserError e]), w')) /\
  (forall (vs : list (ContextValidator Ctx T E W)) ctx value w rs w' (e : E),
     callContext_each vs ctx value w = Some (rs, w') ->
     filter is_Some rs = [Some (UserError e)] ->
     ValidateContext (Some (multiContextValidator vs)) ctx value w
     = Some (Some (joinError [UserError e]), w')).
Proof.
  split.
  - intros vs value w rs w' e Hrun Hone.
    rewrite Validate_multiValidator, Validate_ptrMultiValidator,
      multiValidator_Validate_call_each, Hrun, Hone. by split.
  - intros vs ctx value w rs w' e Hrun Hone.
    by rewrite ValidateContext_multiContextValidator,
      multiContextValidator_Validate_call_each, Hrun, Hone.
Qed.

(** C9. Checking the No-op checker is a success, whatever the value (and
    the token); checking an Aggregate none of whose members fails is a
    success. *)
Theorem NoOp_and_clean_Aggregate_succeed :
  (forall (value : T) (w : W),
     Validate NoOp value w = Some (@None (errorValue E), w)) /\
  (forall (vs : list (Validator T E W)) value w rs w',
     call_each vs value w = Some (rs, w') ->
     Forall (fun r => r = None) rs ->
     Validate (Some (multiValidator vs)) value w = Some (None, w') /\
     Validate (Some (ptrMultiValidator vs)) value w = Some (None, w')) /\
  (forall (ctx : Ctx) (value : T) (w : W),
     ValidateContext NoOpContext ctx value w = Some (@None (errorValue E), w)) /\
  (forall (vs : list (ContextValidator Ctx T E W)) ctx value w rs w',
     callContext_each vs ctx value w = Some (rs, w') ->
     Forall (fun r => r = None) rs ->
     ValidateContext (Some (multiContextValidator vs)) ctx value w
     = Some (None, w')).
Proof.
  split_and!; try done.
  - intros vs value w rs w' Hrun Hclean.
    rewrite Validate_multiValidator, Validate_ptrMultiValidator,
      multiValidator_Validate_call_each, Hrun, filter_is_Some_all_None by done.
    by split.
  - intros vs ctx value w rs w' Hrun Hclean.
    by rewrite ValidateContext_multiContextValidator,
      multiContextValidator_Validate_call_each, Hrun, filter_is_Some_all_None.
Qed.
End Aggregates.

(** The same fact read off a log of calls: an Aggregate of probes, one
    per entry of [rs] and returning that entry, leaves the log of the
    positions [0], [1], ... each once and in order, all on [value],
    whichever entries of [rs] are failures. *)
Lemma call_each_probes {T E : Type} (rs : list (error E)) (value : T) k log :
  call_each (imap (fun i r => Some (Func (Some (probe (k + i) r)))) rs) value log
  = Some (rs, log ++ imap (fun i _ => (k + i, value)) rs).
Proof.
  revert k log; induction rs as [|r rs IH]; intros k log.
  - simpl. by rewrite app_nil_r.
  - rewrite !imap_cons.
    rewrite (imap_ext (_ ∘ S) (fun i r => Some (Func (Some (probe (S k + i) r)))))
      by (intros; simpl; repeat f_equal; lia).
    rewrite (imap_ext (_ ∘ S) (fun i _ => (S k + i, value)))
      by (intros; simpl; repeat f_equal; lia).
    cbn [call_each Validate Validate_impl Func_Validate]. unfold probe at 1.
    by rewrite IH, <- app_assoc.
Qed.

(** X14. An Aggregate of probes, one per entry of [rs] and returning that
    entry, checked from an empty log: the log then holds the positions
    [0], [1], ... each once and in order, all on [value], whichever
    entries of [rs] are failures, and the outcome is [errors.Join] of the
    failures of [rs]. *)
Lemma Aggregate_of_probes {T E : Type} (rs : list (error E)) (value : T) :
  Validate (Some (multiValidator
                    (imap (fun i r => Some (Func (Some (probe i r)))) rs)))
           value []
  = Some (errors_Join (filter is_Some rs), imap (fun i _ => (i, value)) rs).
Proof.
  rewrite Validate_multiValidator, multiValidator_Validate_call_each.
  pose proof (call_each_probes rs value 0 []) as Hrun. simpl in Hrun.
  by rewrite Hrun.
Qed.

Lemma Aggregate_calls_every_member_witness :
  (exists (rs : list (error nat)) (w' : Log),
     length rs = 3 /\
     Validate (Some (multiValidator
                       [leaf (fail_with 1 7); leaf (pass 2); leaf (fail_with 3 9)]))
              5 []
     = Some (errors_Join (filter is_Some rs), w')) /\
  (exists (rs : list (error nat)) (w' : Log),
     length rs = 2 /\
     ValidateContext (Some (multiContextValidator
                              [leafContext (cancelled_with 1 9);
                               leafContext (passContext 2)]))
                     true 5 []
     = Some (errors_Join (filter is_Some rs), w')).
Proof.
  destruct (@Aggregate_calls_every_member bool nat nat Log) as [Hplain Hcontext].
  split.
  - destruct (Hplain [leaf (fail_with 1 7); leaf (pass 2); leaf (fail_with 3 9)]
                     5 [] eq_refl)
      as (rs & ws & w' & Hlen & _ & _ & _ & _ & _ & Hcheck & _).
    by exists rs, w'.
  - destruct (Hcontext [leafContext (cancelled_with 1 9); leafContext (passContext 2)]
                       true 5 [] eq_refl)
      as (rs & ws & w' & Hlen & _ & _ & _ & _ & _ & Hcheck).
    by exists rs, w'.
Defined.

(** The scenario of the specification: members 1 and 3 fail, member 2
    succeeds; all three are called, in order, on the same value, and the
    outcome holds the two failures in member order. *)
Example no_short_circuit :
  Validate (New [fail_with 1 7; pass 2; fail_with 3 9]) 5 []
  = Some (Some (joinError [UserError 7; UserError 9]), [(1, 5); (2, 5); (3, 5)]).
Proof. reflexivity. Qed.

(** A cancelled token does not stop the later members. *)
Example cancelled_token_no_short_circuit :
  ValidateContext (NewContext [cancelled_with 1 9; passContext 2; failContext_with 3 4])
                  true 5 []
  = Some (Some (joinError [UserError 9; UserError 4]), [(1, 5); (2, 5); (3, 5)]).
Proof. reflexivity. Qed.

Lemma Aggregate_single_failure_witness :
  Validate (Some (multiValidator [leaf (pass 1); leaf (fail_with 2 7)])) 5 []
  = Some (Some (joinError [UserError 7]), [(1, 5); (2, 5)]) /\
  ValidateContext (Some (multiContextValidator
                           [leafContext (cancelled_with 1 9);
                            leafContext (passContext 2)])) true 5 []
  = Some (Some (joinError [UserError 9]), [(1, 5); (2, 5)]).
Proof.
  destruct (@Aggregate_single_failure bool nat nat Log) as [Hplain Hcontext].
  split.
  - eapply (Hplain [leaf (pass 1); leaf (fail_with 2 7)] 5 []
                   [None; Some (UserError 7)]); reflexivity.
  - eapply (Hcontext [leafContext (cancelled_with 1 9); leafContext (passContext 2)]
                     true 5 [] [Some (UserError 9); None]); reflexivity.
Defined.

(** C5 as it is written fails: the one failure comes back wrapped. *)
Lemma single_failure_is_wrapped :
  let agg := New [pass 1; fail_with 2 7] in
  members agg = Some [leaf (pass 1); leaf (fail_with 2 7)] /\
  call_each [leaf (pass 1); leaf (fail_with 2 7)] 5 []
  = Some ([None; Some (UserError 7)], [(1, 5); (2, 5)]) /\
  Validate agg 5 [] = Some (Some (joinError [UserError 7]), [(1, 5); (2, 5)]) /\
  Validate agg 5 [] <> Some (Some (UserError 7), [(1, 5); (2, 5)]).
Proof. by split_and!. Qed.

Lemma NoOp_and_clean_Aggregate_succeed_witness :
  Validate (Some (multiValidator [leaf (pass 1); leaf (pass 2)])) 5 []
  = Some (None, [(1, 5); (2, 5)]) /\
  ValidateContext (Some (multiContextValidator
                           [leafContext (cancelled_with 1 9);
                            leafContext (passContext 2)])) false 5 []
  = Some (None, [(1, 5); (2, 5)]).
Proof.
  destruct (@NoOp_and_clean_Aggregate_succeed bool nat nat Log)
    as (_ & Hplain & _ & Hcontext).
  split.
  - eapply (Hplain [leaf (pass 1); leaf (pass 2)] 5 [] [None; None]);
      [reflexivity|by repeat constructor].
  - eapply (Hcontext [leafContext (cancelled_with 1 9); leafContext (passContext 2)]
                     false 5 [] [None; None]);
      [reflexivity|by repeat constructor].
Defined.

(** ** Merging checkers *)

Section Merging.
Context {Ctx T E W : Type}.

(** C1, in the plain flavour: what the code does. [Join] returns a pointer
    to a [multiValidator], and the type switch of its loop has a case for
    the struct type only; a result of [Join] handed to [Join] again goes
    through the default case and is appended whole. With five Leaves, the
    outer Aggregate has three members, the first of them an Aggregate,
    where the flat join has five. *)
Theorem Join_of_Join_not_flattened (a b c d e : RawFunc T E W) :
  let leaf (f : RawFunc T E W) : Validator T E W := Some (Func (Some f)) in
  Join [Join [leaf a; leaf b; leaf c]; leaf d; leaf e]
  = Some (ptrMultiValidator
            [Some (ptrMultiValidator [leaf a; leaf b; leaf c]); leaf d; leaf e]) /\
  Join [leaf a; leaf b; leaf c; leaf d; leaf e]
  = Some (ptrMultiValidator [leaf a; leaf b; leaf c; leaf d; leaf e]) /\
  (length <$> members (Join [Join [leaf a; leaf b; leaf c]; leaf d; leaf e])) = Some 3 /\
  (length <$> members (Join [leaf a; leaf b; leaf c; leaf d; leaf e])) = Some 5.
Proof. by split_and!. Qed.

(** X5. The context flavour returns the struct, and flattens: joining the
    join of a first group with a second group is joining the two groups
    at once, as soon as the first group has a checker that is not nil. *)
Lemma JoinContext_of_JoinContext (vs1 vs2 : list (ContextValidator Ctx T E W)) :
  filter is_Some vs1 <> [] ->
  JoinContext (JoinContext vs1 :: vs2) = JoinContext (vs1 ++ vs2).
Proof.
  intros Hlive. rewrite (JoinContext_unfold (vs1 ++ vs2)), filter_app.
  pose proof (filter_is_Some_Forall vs1) as Hsome.
  rewrite (JoinContext_unfold vs1). revert Hlive Hsome.
  destruct (filter is_Some vs1) as [|v [|v' live]]; intros Hlive Hsome; [done| |].
  - apply Forall_cons in Hsome as [Hv _].
    by rewrite JoinContext_unfold, filter_cons_True.
  - rewrite JoinContext_unfold, filter_cons_True by eauto.
    destruct (filter is_Some vs2) as [|v2 live2].
    + by rewrite app_nil_r.
    + simpl. do 2 f_equal. unfold JoinContext_splice at 1.
      unfold JoinContext_step. simpl.
      rewrite <- !app_assoc. do 2 f_equal. symmetry.
      apply (bind_app JoinContext_splice live (v2 :: live2)).
Qed.

(** C2, as the code has it. [Join] and [JoinContext] drop the nil
    checkers and nothing else. A No-op checker is not nil: it is kept,
    and the join of the No-op checker with a checker [c] that is not nil
    is an Aggregate whose members are the No-op checker, then [c] (then
    the members of [c], when [c] is an Aggregate struct). *)
Theorem Join_keeps_NoOp :
  (forall vs : list (Validator T E W),
     nonNilValidators vs = filter is_Some vs) /\
  (forall d : ValidatorImpl T E W,
     Join [NoOp; Some d]
     = Some (ptrMultiValidator
               (NoOp :: match d with
                        | multiValidator ms => ms
                        | _ => [Some d]
                        end))) /\
  (forall vs : list (ContextValidator Ctx T E W),
     nonNilContextValidator vs = filter is_Some vs) /\
  (forall d : ContextValidatorImpl Ctx T E W,
     JoinContext [NoOpContext; Some d]
     = Some (multiContextValidator
               (NoOpContext :: match d with
                               | multiContextValidator ms => ms
                               | _ => [Some d]
                               end))).
Proof.
  split_and!.
  - apply nonNilValidators_filter.
  - intros d. rewrite Join_unfold. simpl. do 2 f_equal.
    unfold Join_splice. destruct d; simpl; by rewrite ?app_nil_r.
  - apply nonNilContextValidator_filter.
  - intros d. rewrite JoinContext_unfold. simpl. do 2 f_equal.
    unfold JoinContext_splice, JoinContext_step.
    destruct d; simpl; by rewrite ?app_nil_r.
Qed.

Lemma bind_length_ge {A B : Type} (f : A -> list B) (l : list A) :
  (forall x, x ∈ l -> 1 <= length (f x)) -> length l <= length (l ≫= f).
Proof.
  induction l as [|x l IH]; intros Hf; [done|].
  rewrite bind_cons, length_app. simpl. pose proof (Hf x ltac:(left)).
  assert (length l <= length (l ≫= f)); [|lia].
  apply IH. intros y Hy. apply Hf. by right.
Qed.

Lemma New_members_min (fs : list (option (RawFunc T E W))) ms :
  members (New fs) = Some ms -> 2 <= length ms.
Proof.
  rewrite New_unfold. destruct (filter is_Some fs) as [|fn [|fn' live]]; try done.
  intros [= <-]. simpl. lia.
Qed.

Lemma NewContext_members_min (fs : list (option (RawContextFunc Ctx T E W))) ms :
  membersContext (NewContext fs) = Some ms -> 2 <= length ms.
Proof.
  rewrite NewContext_unfold.
  destruct (filter is_Some fs) as [|fn [|fn' live]]; try done.
  intros [= <-]. simpl. lia.
Qed.

Lemma Join_members_min (vs : list (Validator T E W)) :
  (forall v, v ∈ vs -> forall ms, members v = Some ms -> 2 <= length ms) ->
  forall ms, members (Join vs) = Some ms -> 2 <= length ms.
Proof.
  intros Hvs ms. rewrite Join_unfold.
  assert (Hsub : forall v, v ∈ filter is_Some vs -> v ∈ vs).
  { intros v Hv. by apply list_elem_of_filter in Hv as [_ ?]. }
  assert (Hlen : length (filter is_Some vs)
                 <= length (filter is_Some vs ≫= Join_splice)).
  { apply bind_length_ge. intros x Hx. unfold Join_splice.
    destruct x as [[fn|ms'|ms'| |validate]|]; simpl; try lia.
    specialize (Hvs _ (Hsub _ Hx) ms' eq_refl). lia. }
  revert Hsub Hlen.
  destruct (filter is_Some vs) as [|v [|v' live]]; intros Hsub Hlen; [done| |].
  - apply Hvs, Hsub. by left.
  - intros [= <-]. simpl in Hlen |- *. lia.
Qed.

Lemma JoinContext_members_min (vs : list (ContextValidator Ctx T E W)) :
  (forall v, v ∈ vs -> forall ms, membersContext v = Some ms -> 2 <= length ms) ->
  forall ms, membersContext (JoinContext vs) = Some ms -> 2 <= length ms.
Proof.
  intros Hvs ms. rewrite JoinContext_unfold.
  assert (Hsub : forall v, v ∈ filter is_Some vs -> v ∈ vs).
  { intros v Hv. by apply list_elem_of_filter in Hv as [_ ?]. }
  assert (Hlen : length (filter is_Some vs)
                 <= length (filter is_Some vs ≫= JoinContext_splice)).
  { apply bind_length_ge. intros x Hx. unfold JoinContext_splice, JoinContext_step.
    pose proof (filter_is_Some_Forall vs) as Hsome.
    rewrite Forall_forall in Hsome.
    destruct x as [[fn|ms'| |validate]|]; simpl; try lia.
    - specialize (Hvs _ (Hsub _ Hx) ms' eq_refl). lia.
    - by destruct (Hsome _ Hx). }
  revert Hsub Hlen.
  destruct (filter is_Some vs) as [|v [|v' live]]; intros Hsub Hlen; [done| |].
  - apply Hvs, Hsub. by left.
  - intros [= <-]. simpl in Hlen |- *. lia.
Qed.

(** C8. Whatever a client builds with the factories, an Aggregate among
    the checkers it holds has at least two members: there is no
    Aggregate of none or of one. *)
Theorem Aggregate_has_two_members :
  (forall v : Validator T E W,
     constructible v -> forall ms, members v = Some ms -> 2 <= length ms) /\
  (forall v : ContextValidator Ctx T E W,
     constructibleContext v ->
     forall ms, membersContext v = Some ms -> 2 <= length ms).
Proof.
  split; intros v Hv.
  - induction Hv as [|fn|validate| |fs|vs _ IH]; try done.
    + apply New_members_min.
    + by apply Join_members_min.
  - induction Hv as [|fn|validate| |fs|vs _ IH]; try done.
    + apply NewContext_members_min.
    + by apply JoinContext_members_min.
Qed.
End Merging.

(** The case [ThreeWithAMultiValidator] of the two test files, which
    wants five members: the context flavour has them, the plain flavour
    has three. *)
Example ThreeWithAMultiValidator_context :
  let f := leafContext (passContext 0) in
  length <$> membersContext (JoinContext [JoinContext [f; f; f]; None; f; None; f; None])
  = Some 5.
Proof. reflexivity. Qed.

Example ThreeWithAMultiValidator_plain :
  let f := leaf (pass 0) in
  length <$> members (Join [Join [f; f; f]; None; f; None; f; None]) = Some 3.
Proof. reflexivity. Qed.

(** X6. In the context flavour no Aggregate a client can hold has an
    Aggregate among its members. *)
Lemma constructibleContext_flat {Ctx T E W : Type}
    (v : ContextValidator Ctx T E W) :
  constructibleContext v ->
  forall ms, membersContext v = Some ms ->
             Forall (fun m => membersContext m = None) ms.
Proof.
  induction 1 as [|fn|validate| |fs|vs _ IH]; try done.
  - intros ms. rewrite NewContext_unfold.
    destruct (filter is_Some fs) as [|fn [|fn' live]]; try done.
    intros [= <-]. do 2 (constructor; [done|]).
    apply (Forall_fmap _ _ live), Forall_true. done.
  - intros ms. rewrite JoinContext_unfold.
    assert (Hsub : forall v, v ∈ filter is_Some vs -> v ∈ vs).
    { intros v Hv. by apply list_elem_of_filter in Hv as [_ ?]. }
    assert (Hflat : Forall (fun m => membersContext m = None)
                           (filter is_Some vs ≫= JoinContext_splice)).
    { apply Forall_bind, Forall_forall. intros x Hx.
      unfold JoinContext_splice, JoinContext_step.
      destruct x as [[fn|ms'| |validate]|]; simpl; try by repeat constructor.
      apply (IH _ (Hsub _ Hx)). done. }
    revert Hsub Hflat.
    destruct (filter is_Some vs) as [|v [|v' live]]; intros Hsub Hflat; [done| |].
    + apply IH, Hsub. by left.
    + by intros [= <-].
Qed.

(** C2 as it is written fails: the No-op checker stays, and the join is
    an Aggregate of two. *)
Lemma Join_NoOp_is_Aggregate :
  Join [NoOp; leaf (pass 1)] = Some (ptrMultiValidator [NoOp; leaf (pass 1)]) /\
  Join [NoOp; leaf (pass 1)] <> leaf (pass 1) /\
  JoinContext [NoOpContext; leafContext (passContext 1)]
  = Some (multiContextValidator [NoOpContext; leafContext (passContext 1)]) /\
  JoinContext [NoOpContext; leafContext (passContext 1)]
  <> leafContext (passContext 1).
Proof. by split_and!. Qed.

Lemma Aggregate_has_two_members_witness :
  (constructible (Join [New [pass 1; fail_with 2 7]; None; leaf (pass 3)]) /\
   2 <= length [leaf (pass 1); leaf (fail_with 2 7); leaf (pass 3)]) /\
  (constructibleContext
     (JoinContext [NewContext [passContext 1; cancelled_with 2 9];
                   leafContext (passContext 3)]) /\
   2 <= length [leafContext (passContext 1); leafContext (cancelled_with 2 9);
                leafContext (passContext 3)]).
Proof.
  destruct (@Aggregate_has_two_members bool nat nat Log) as [Hplain Hcontext].
  assert (Hc : constructible (Join [New [pass 1; fail_with 2 7]; None; leaf (pass 3)])).
  { apply constructible_Join. intros v Hv.
    apply elem_of_cons in Hv as [->|Hv]; [apply constructible_New|].
    apply elem_of_cons in Hv as [->|Hv]; [apply constructible_nil|].
    apply list_elem_of_singleton in Hv as ->. apply constructible_Func. }
  assert (Hcc : constructibleContext
                  (JoinContext [NewContext [passContext 1; cancelled_with 2 9];
                                leafContext (passContext 3)])).
  { apply constructibleContext_Join. intros v Hv.
    apply elem_of_cons in Hv as [->|Hv]; [apply constructibleContext_New|].
    apply list_elem_of_singleton in Hv as ->. apply constructibleContext_Func. }
  split; (split; [done|]).
  - by apply (Hplain _ Hc).
  - by apply (Hcontext _ Hcc).
Defined.

(** * Further properties of the code *)

(** ** Dropping nil entries *)

Section Normalization.
Context {Ctx T E W : Type}.

Lemma squash_loop_only_drops_nil {A : Type} (l : list (option A)) :
  foldl squash_step [] l `sublist_of` l /\
  Forall is_Some (foldl squash_step [] l) /\
  (Forall is_Some l -> foldl squash_step [] l = l).
Proof.
  rewrite foldl_squash_step. simpl. split_and!.
  - apply sublist_filter.
  - apply filter_is_Some_Forall.
  - induction 1 as [|x l Hx _ IH]; [done|]. by rewrite filter_cons_True, IH.
Qed.

(** X1. Each of the four [nonNil...] helpers returns a sub-sequence of its
    input (same entries, same order, some left out) that holds no nil, and
    returns an input without nil as it is; hence applying a helper twice
    is applying it once. *)
Theorem nonNil_only_drops_nil :
  (forall l : list (option (RawFunc T E W)),
     sublist (nonNilFunc l) l /\ Forall is_Some (nonNilFunc l) /\
     (Forall is_Some l -> nonNilFunc l = l)) /\
  (forall l : list (Validator T E W),
     sublist (nonNilValidators l) l /\ Forall is_Some (nonNilValidators l) /\
     (Forall is_Some l -> nonNilValidators l = l)) /\
  (forall l : list (option (RawContextFunc Ctx T E W)),
     sublist (nonNilContextFunc l) l /\ Forall is_Some (nonNilContextFunc l) /\
     (Forall is_Some l -> nonNilContextFunc l = l)) /\
  (forall l : list (ContextValidator Ctx T E W),
     sublist (nonNilContextValidator l) l /\
     Forall is_Some (nonNilContextValidator l) /\
     (Forall is_Some l -> nonNilContextValidator l = l)).
Proof. split_and!; intros l; apply squash_loop_only_drops_nil. Qed.

Lemma filter_is_Some_drop_None {A : Type} (l1 l2 : list (option A)) :
  filter is_Some (l1 ++ None :: l2) = filter is_Some (l1 ++ l2).
Proof.
  rewrite !filter_app, filter_cons_False; [done|]. by intros [? ?].
Qed.

Lemma filter_is_Some_replicate_None {A : Type} n :
  filter is_Some (replicate n (@None A)) = [].
Proof.
  induction n as [|n IH]; [done|]. simpl.
  rewrite filter_cons_False; [done|]. by intros [? ?].
Qed.

(** X2. A nil entry, wherever it stands in the input, changes nothing to
    what the four factories return, and an input of nil entries only gives
    the No-op checker. *)
Theorem factories_ignore_nil :
  (forall fs1 fs2 : list (option (RawFunc T E W)),
     New (fs1 ++ None :: fs2) = New (fs1 ++ fs2)) /\
  (forall n, New (replicate n None) = (NoOp : Validator T E W)) /\
  (forall vs1 vs2 : list (Validator T E W),
     Join (vs1 ++ None :: vs2) = Join (vs1 ++ vs2)) /\
  (forall n, Join (replicate n None) = (NoOp : Validator T E W)) /\
  (forall fs1 fs2 : list (option (RawContextFunc Ctx T E W)),
     NewContext (fs1 ++ None :: fs2) = NewContext (fs1 ++ fs2)) /\
  (forall n, NewContext (replicate n None)
             = (NoOpContext : ContextValidator Ctx T E W)) /\
  (forall vs1 vs2 : list (ContextValidator Ctx T E W),
     JoinContext (vs1 ++ None :: vs2) = JoinContext (vs1 ++ vs2)) /\
  (forall n, JoinContext (replicate n None)
             = (NoOpContext : ContextValidator Ctx T E W)).
Proof.
  split_and!; intros.
  - by rewrite !New_unfold, filter_is_Some_drop_None.
  - by rewrite New_unfold, filter_is_Some_replicate_None.
  - by rewrite !Join_unfold, filter_is_Some_drop_None.
  - by rewrite Join_unfold, filter_is_Some_replicate_None.
  - by rewrite !NewContext_unfold, filter_is_Some_drop_None.
  - by rewrite NewContext_unfold, filter_is_Some_replicate_None.
  - by rewrite !JoinContext_unfold, filter_is_Some_drop_None.
  - by rewrite JoinContext_unfold, filter_is_Some_replicate_None.
Qed.
End Normalization.

(** ** The member list that [Join] builds *)

Section MemberLists.
Context {Ctx T E W : Type}.

Lemma length_bind_sum {A B : Type} (f : A -> list B) (g : A -> nat) (l : list A) :
  Forall (fun x => length (f x) = g x) l ->
  length (l ≫= f) = sum_list_with g l.
Proof.
  induction 1 as [|x l Hx _ IH]; [done|].
  rewrite bind_cons, length_app, IH, Hx. done.
Qed.

(** X3. With two or more checkers that are not nil, [Join] returns a
    pointer Aggregate and [JoinContext] a struct Aggregate whose member
    list is the concatenation, in input order, of what each survivor
    contributes: an Aggregate struct contributes its members, anything
    else (in the plain flavour a pointer Aggregate too) contributes
    itself. The member count is the sum of these widths. *)
Theorem Join_member_list :
  (forall vs : list (Validator T E W),
     let live := filter is_Some vs in
     2 <= length live ->
     exists ms,
       Join vs = Some (ptrMultiValidator ms) /\
       ms = live ≫= (fun v => match v with
                               | Some (multiValidator inner) => inner
                               | _ => [v]
                               end) /\
       length ms = sum_list_with (fun v => match v with
                                           | Some (multiValidator inner) => length inner
                                           | _ => 1
                                           end) live) /\
  (forall vs : list (ContextValidator Ctx T E W),
     let live := filter is_Some vs in
     2 <= length live ->
     exists ms,
       JoinContext vs = Some (multiContextValidator ms) /\
       ms = live ≫= (fun v => match v with
                               | Some (multiContextValidator inner) => inner
                               | _ => [v]
                               end) /\
       length ms = sum_list_with (fun v => match v with
                                           | Some (multiContextValidator inner) =>
                                               length inner
                                           | _ => 1
                                           end) live).
Proof.
  split; intros vs; simpl; intros Hlive.
  - rewrite Join_unfold.
    destruct (filter is_Some vs) as [|v [|v' rest]]; simpl in Hlive; try lia.
    eexists; split; [done|]. split.
    + apply list_bind_ext; [|done].
      intros [[]|]; unfold Join_splice; simpl; by rewrite ?app_nil_r.
    + apply length_bind_sum, Forall_forall. by intros [[]|].
  - rewrite JoinContext_unfold. pose proof (filter_is_Some_Forall vs) as Hsome.
    revert Hlive Hsome.
    destruct (filter is_Some vs) as [|v [|v' rest]]; intros Hlive Hsome;
      simpl in Hlive; try lia.
    eexists; split; [done|].
    assert (Hagree : Forall (fun v : ContextValidator Ctx T E W =>
                               JoinContext_splice v
                               = match v with
                                 | Some (multiContextValidator inner) => inner
                                 | _ => [v]
                                 end) (v :: v' :: rest)).
    { eapply Forall_impl; [exact Hsome|]. intros x [d ->].
      unfold JoinContext_splice, JoinContext_step. by destruct d. }
    split.
    + by apply Forall_bind_ext.
    + apply length_bind_sum. eapply Forall_impl; [exact Hagree|].
      intros x ->. by destruct x as [[]|].
Qed.
End MemberLists.

Lemma Join_member_list_witness :
  (exists ms,
     Join [New [pass 1; pass 2]; None;
           Join [leaf (pass 3); leaf (pass 4)]; leaf (pass 5)]
     = Some (ptrMultiValidator ms) /\ length ms = 4) /\
  (exists ms,
     JoinContext [NewContext [passContext 1; passContext 2]; None;
                  JoinContext [leafContext (passContext 3);
                               leafContext (passContext 4)];
                  leafContext (passContext 5)]
     = Some (multiContextValidator ms) /\ length ms = 5).
Proof.
  destruct (@Join_member_list bool nat nat Log) as [Hplain Hcontext].
  split.
  - destruct (Hplain [New [pass 1; pass 2]; None;
                      Join [leaf (pass 3); leaf (pass 4)]; leaf (pass 5)])
      as (ms & HJoin & _ & Hlen); [vm_compute; lia|].
    exists ms. split; [exact HJoin|]. rewrite Hlen. reflexivity.
  - destruct (Hcontext [NewContext [passContext 1; passContext 2]; None;
                        JoinContext [leafContext (passContext 3);
                                     leafContext (passContext 4)];
                        leafContext (passContext 5)])
      as (ms & HJoin & _ & Hlen); [vm_compute; lia|].
    exists ms. split; [exact HJoin|]. rewrite Hlen. reflexivity.
Defined.

Section JoinOfNew.
Context {Ctx T E W : Type}.

Lemma filter_is_Some_fmap_Some {A B : Type} (g : A -> B) (l : list A) :
  filter is_Some ((fun x => Some (g x)) <$> l) = (fun x => Some (g x)) <$> l.
Proof.
  induction l as [|x l IH]; [done|].
  rewrite fmap_cons, filter_cons_True by eauto. by rewrite IH.
Qed.

Lemma Func_leaves_splice (l : list (option (RawFunc T E W))) :
  ((fun fn => Some (Func fn)) <$> l) ≫= Join_splice
  = (fun fn => Some (Func fn)) <$> l.
Proof.
  induction l as [|fn l IH]; [done|]. rewrite fmap_cons, bind_cons, IH. done.
Qed.

Lemma ContextFunc_leaves_splice (l : list (option (RawContextFunc Ctx T E W))) :
  ((fun fn => Some (ContextFunc fn)) <$> l) ≫= JoinContext_splice
  = (fun fn => Some (ContextFunc fn)) <$> l.
Proof.
  induction l as [|fn l IH]; [done|]. rewrite fmap_cons, bind_cons, IH. done.
Qed.

(** X4. An Aggregate that [New] returns is a struct, and [Join] does
    splice it: joining the result of [New] with further checkers, one of
    them at least not nil, is joining the Leaves of the functions of
    [New] that are not nil with those checkers. [JoinContext] does the
    same for [NewContext], with or without further checkers. *)
Theorem Join_of_New_flattened :
  (forall (fs : list (option (RawFunc T E W))) (vs : list (Validator T E W)),
     filter is_Some fs <> [] -> filter is_Some vs <> [] ->
     Join (New fs :: vs)
     = Join (((fun fn => Some (Func fn)) <$> filter is_Some fs) ++ vs)) /\
  (forall (fs : list (option (RawContextFunc Ctx T E W)))
          (vs : list (ContextValidator Ctx T E W)),
     filter is_Some fs <> [] ->
     JoinContext (NewContext fs :: vs)
     = JoinContext (((fun fn => Some (ContextFunc fn)) <$> filter is_Some fs) ++ vs)).
Proof.
  split.
  - intros fs vs Hfs Hvs. rewrite !Join_unfold, New_unfold, filter_app.
    rewrite filter_is_Some_fmap_Some. revert Hfs Hvs.
    destruct (filter is_Some fs) as [|fn [|fn' live]]; intros Hfs Hvs; [done| |].
    + by rewrite filter_cons_True by eauto.
    + rewrite filter_cons_True by eauto.
      destruct (filter is_Some vs) as [|v2 live2]; [done|].
      set (leaves := (fun fn => Some (Func fn)) <$> fn :: fn' :: live).
      transitivity (Some (ptrMultiValidator
                            ((leaves ++ v2 :: live2) ≫= Join_splice)));
        [|done].
      rewrite bind_app. unfold leaves. rewrite Func_leaves_splice.
      rewrite bind_cons. by unfold Join_splice at 1.
  - intros fs vs Hfs. rewrite !JoinContext_unfold, NewContext_unfold, filter_app.
    rewrite filter_is_Some_fmap_Some. revert Hfs.
    destruct (filter is_Some fs) as [|fn [|fn' live]]; intros Hfs; [done| |].
    + by rewrite filter_cons_True by eauto.
    + rewrite filter_cons_True by eauto.
      set (leaves := (fun fn => Some (ContextFunc fn)) <$> fn :: fn' :: live).
      transitivity (Some (multiContextValidator
                            ((leaves ++ filter is_Some vs) ≫= JoinContext_splice)));
        [|done].
      rewrite bind_app. unfold leaves. rewrite ContextFunc_leaves_splice.
      destruct (filter is_Some vs) as [|v2 live2].
      * by rewrite app_nil_r.
      * rewrite bind_cons. by unfold JoinContext_splice at 1.
Qed.
End JoinOfNew.

Lemma Join_of_New_flattened_witness :
  Join [New [pass 1; None; fail_with 2 7]; leaf (pass 3)]
  = Join [leaf (pass 1); leaf (fail_with 2 7); leaf (pass 3)] /\
  JoinContext [NewContext [passContext 1; None; cancelled_with 2 9]]
  = JoinContext [leafContext (passContext 1); leafContext (cancelled_with 2 9)].
Proof.
  destruct (@Join_of_New_flattened bool nat nat Log) as [Hplain Hcontext].
  split.
  - by apply (Hplain [pass 1; None; fail_with 2 7] [leaf (pass 3)]).
  - by apply (Hcontext [passContext 1; None; cancelled_with 2 9] []).
Defined.

Lemma JoinContext_of_JoinContext_witness :
  JoinContext [JoinContext [leafContext (passContext 1); None;
                            leafContext (cancelled_with 2 9)];
               None; leafContext (passContext 3)]
  = JoinContext [leafContext (passContext 1); None;
                 leafContext (cancelled_with 2 9);
                 None; leafContext (passContext 3)].
Proof.
  by apply (@JoinContext_of_JoinContext bool nat nat Log
              [leafContext (passContext 1); None; leafContext (cancelled_with 2 9)]
              [None; leafContext (passContext 3)]).
Defined.

Lemma constructibleContext_flat_witness :
  Forall (fun m : ContextValidator bool nat nat Log => membersContext m = None)
         [leafContext (passContext 1); leafContext (cancelled_with 2 9);
          leafContext (passContext 3)].
Proof.
  apply (constructibleContext_flat
           (JoinContext [NewContext [passContext 1; cancelled_with 2 9];
                         leafContext (passContext 3)])); [|reflexivity].
  apply constructibleContext_Join. intros v Hv.
  apply elem_of_cons in Hv as [->|Hv]; [apply constructibleContext_New|].
  apply list_elem_of_singleton in Hv as ->. apply constructibleContext_Func.
Defined.

(** ** What checking a built checker does *)

Section Outcomes.
Context {Ctx T E W : Type}.

Lemma omap_id_filter_is_Some {A : Type} (rs : list (option A)) :
  omap id (filter is_Some rs) = omap id rs.
Proof.
  induction rs as [|[a|] rs IH]; [done| |].
  - rewrite filter_cons_True by eauto. cbn. by rewrite IH.
  - rewrite filter_cons_False; [done|]. by intros [? ?].
Qed.

Lemma omap_id_nil_iff {A : Type} (rs : list (option A)) :
  omap id rs = [] <-> Forall (fun r => r = None) rs.
Proof.
  induction rs as [|[a|] rs IH]; cbn.
  - split; [constructor|done].
  - split; [done|]. by intros [[=] _]%Forall_cons.
  - rewrite IH. split; [by constructor|]. by intros [_ ?]%Forall_cons.
Qed.

Lemma errors_Join_success_iff (rs : list (error E)) :
  errors_Join (filter is_Some rs) = None <-> Forall (fun r => r = None) rs.
Proof.
  rewrite errors_Join_spec, omap_id_filter_is_Some, <- omap_id_nil_iff.
  by destruct (omap id rs).
Qed.

Lemma call_each_app (vs1 vs2 : list (Validator T E W)) value w :
  call_each (vs1 ++ vs2) value w
  = match call_each vs1 value w with
    | None => None
    | Some (rs1, w1) =>
        match call_each vs2 value w1 with
        | None => None
        | Some (rs2, w2) => Some (rs1 ++ rs2, w2)
        end
    end.
Proof.
  revert w; induction vs1 as [|m vs1 IH]; intros w; simpl.
  - by destruct (call_each vs2 value w) as [[rs2 w2]|].
  - destruct (Validate m value w) as [[r w1]|]; [|done]. rewrite IH.
    destruct (call_each vs1 value w1) as [[rs1 w1']|]; [|done].
    by destruct (call_each vs2 value w1') as [[rs2 w2]|].
Qed.

Lemma callContext_each_app (vs1 vs2 : list (ContextValidator Ctx T E W))
    ctx value w :
  callContext_each (vs1 ++ vs2) ctx value w
  = match callContext_each vs1 ctx value w with
    | None => None
    | Some (rs1, w1) =>
        match callContext_each vs2 ctx value w1 with
        | None => None
        | Some (rs2, w2) => Some (rs1 ++ rs2, w2)
        end
    end.
Proof.
  revert w; induction vs1 as [|m vs1 IH]; intros w; simpl.
  - by destruct (callContext_each vs2 ctx value w) as [[rs2 w2]|].
  - destruct (ValidateContext m ctx value w) as [[r w1]|]; [|done]. rewrite IH.
    destruct (callContext_each vs1 ctx value w1) as [[rs1 w1']|]; [|done].
    by destruct (callContext_each vs2 ctx value w1') as [[rs2 w2]|].
Qed.

(** X8. The loop of [Validate] over a member list in two parts is the
    loop over the first part, then the loop over the second part from the
    world the first one left, the failures of the second appended to
    those of the first; a panic in either part is a panic of the whole. *)
Theorem collect_app :
  (forall (vs1 vs2 : list (Validator T E W)) value w,
     multiValidator_collect (vs1 ++ vs2) value w
     = match multiValidator_collect vs1 value w with
       | None => None
       | Some (errs1, w1) =>
           match multiValidator_collect vs2 value w1 with
           | None => None
           | Some (errs2, w2) => Some (errs1 ++ errs2, w2)
           end
       end) /\
  (forall (vs1 vs2 : list (ContextValidator Ctx T E W)) ctx value w,
     multiContextValidator_collect (vs1 ++ vs2) ctx value w
     = match multiContextValidator_collect vs1 ctx value w with
       | None => None
       | Some (errs1, w1) =>
           match multiContextValidator_collect vs2 ctx value w1 with
           | None => None
           | Some (errs2, w2) => Some (errs1 ++ errs2, w2)
           end
       end).
Proof.
  split; intros.
  - rewrite !multiValidator_collect_call_each, call_each_app.
    destruct (call_each vs1 value w) as [[rs1 w1]|]; [|done].
    rewrite multiValidator_collect_call_each.
    destruct (call_each vs2 value w1) as [[rs2 w2]|]; [|done].
    by rewrite filter_app.
  - rewrite !multiContextValidator_collect_call_each, callContext_each_app.
    destruct (callContext_each vs1 ctx value w) as [[rs1 w1]|]; [|done].
    rewrite multiContextValidator_collect_call_each.
    destruct (callContext_each vs2 ctx value w1) as [[rs2 w2]|]; [|done].
    by rewrite filter_app.
Qed.

(** X11. When the members of an Aggregate return [rs], the outcome of
    checking it is nil if no entry of [rs] is a failure, and otherwise one
    join error whose constituents are the failures of [rs], all of them
    and in member order. *)
Theorem Aggregate_outcome_constituents :
  (forall (vs : list (Validator T E W)) value w rs w',
     call_each vs value w = Some (rs, w') ->
     let outcome := match omap id rs with
                    | [] => None
                    | failures => Some (joinError failures)
                    end in
     Validate (Some (multiValidator vs)) value w = Some (outcome, w') /\
     Validate (Some (ptrMultiValidator vs)) value w = Some (outcome, w')) /\
  (forall (vs : list (ContextValidator Ctx T E W)) ctx value w rs w',
     callContext_each vs ctx value w = Some (rs, w') ->
     ValidateContext (Some (multiContextValidator vs)) ctx value w
     = Some (match omap id rs with
             | [] => None
             | failures => Some (joinError failures)
             end, w')).
Proof.
  split.
  - intros vs value w rs w' Hrun outcome. unfold outcome.
    rewrite Validate_multiValidator, Validate_ptrMultiValidator,
      multiValidator_Validate_call_each, Hrun, errors_Join_spec,
      omap_id_filter_is_Some.
    by split.
  - intros vs ctx value w rs w' Hrun.
    by rewrite ValidateContext_multiContextValidator,
      multiContextValidator_Validate_call_each, Hrun, errors_Join_spec,
      omap_id_filter_is_Some.
Qed.
End Outcomes.

Lemma Aggregate_outcome_constituents_witness :
  Validate (Some (multiValidator
                    [leaf (fail_with 1 7); leaf (pass 2); leaf (fail_with 3 9)]))
           5 []
  = Some (Some (joinError [UserError 7; UserError 9]), [(1, 5); (2, 5); (3, 5)]) /\
  ValidateContext (Some (multiContextValidator
                           [leafContext (cancelled_with 1 9);
                            leafContext (failContext_with 2 4)])) false 5 []
  = Some (Some (joinError [UserError 4]), [(1, 5); (2, 5)]).
Proof.
  destruct (@Aggregate_outcome_constituents bool nat nat Log) as [Hplain Hcontext].
  split.
  - eapply (Hplain [leaf (fail_with 1 7); leaf (pass 2); leaf (fail_with 3 9)]
                   5 [] [Some (UserError 7); None; Some (UserError 9)]).
    reflexivity.
  - eapply (Hcontext [leafContext (cancelled_with 1 9);
                      leafContext (failContext_with 2 4)]
                     false 5 [] [None; Some (UserError 4)]).
    reflexivity.
Defined.

(** ** Checkers built by the factories never panic *)

Section NoPanic.
Context {Ctx T E W : Type}.

Lemma forallb_nil_free_leaves (l : list (option (RawFunc T E W))) :
  forallb nil_free ((fun fn => Some (Func fn)) <$> l) = true.
Proof. by induction l. Qed.

Lemma forallb_nil_freeContext_leaves (l : list (option (RawContextFunc Ctx T E W))) :
  forallb nil_freeContext ((fun fn => Some (ContextFunc fn)) <$> l) = true.
Proof. by induction l. Qed.

Lemma New_nil_free (fs : list (option (RawFunc T E W))) : nil_free (New fs) = true.
Proof.
  rewrite New_unfold. destruct (filter is_Some fs) as [|fn [|fn' live]]; try done.
  apply (forallb_nil_free_leaves (fn :: fn' :: live)).
Qed.

Lemma NewContext_nil_free (fs : list (option (RawContextFunc Ctx T E W))) :
  nil_freeContext (NewContext fs) = true.
Proof.
  rewrite NewContext_unfold.
  destruct (filter is_Some fs) as [|fn [|fn' live]]; try done.
  apply (forallb_nil_freeContext_leaves (fn :: fn' :: live)).
Qed.

Lemma Join_splice_nil_free (l : list (Validator T E W)) :
  Forall (fun v => nil_free v = true) l ->
  forallb nil_free (l ≫= Join_splice) = true.
Proof.
  induction 1 as [|v l Hv _ IH]; [done|].
  rewrite bind_cons, forallb_app, IH, andb_true_r.
  unfold Join_splice. destruct v as [[]|]; simpl in *; by rewrite ?andb_true_r.
Qed.

Lemma JoinContext_splice_nil_free (l : list (ContextValidator Ctx T E W)) :
  Forall (fun v => nil_freeContext v = true) l ->
  forallb nil_freeContext (l ≫= JoinContext_splice) = true.
Proof.
  induction 1 as [|v l Hv _ IH]; [done|].
  rewrite bind_cons, forallb_app, IH, andb_true_r.
  unfold JoinContext_splice, JoinContext_step.
  destruct v as [[]|]; simpl in *; by rewrite ?andb_true_r.
Qed.

Lemma Join_nil_free (vs : list (Validator T E W)) :
  (forall v, v ∈ vs -> is_Some v -> nil_free v = true) ->
  nil_free (Join vs) = true.
Proof.
  intros Hvs. rewrite Join_unfold.
  assert (Hlive : Forall (fun v => nil_free v = true) (filter is_Some vs)).
  { apply Forall_forall. intros v [Hv Hin]%list_elem_of_filter. by apply Hvs. }
  pose proof (Join_splice_nil_free _ Hlive) as Hsplice. revert Hlive Hsplice.
  destruct (filter is_Some vs) as [|v [|v' live]]; intros Hlive Hsplice; [done| |].
  - by apply Forall_cons in Hlive as [? _].
  - exact Hsplice.
Qed.

Lemma JoinContext_nil_free (vs : list (ContextValidator Ctx T E W)) :
  (forall v, v ∈ vs -> is_Some v -> nil_freeContext v = true) ->
  nil_freeContext (JoinContext vs) = true.
Proof.
  intros Hvs. rewrite JoinContext_unfold.
  assert (Hlive : Forall (fun v => nil_freeContext v = true) (filter is_Some vs)).
  { apply Forall_forall. intros v [Hv Hin]%list_elem_of_filter. by apply Hvs. }
  pose proof (JoinContext_splice_nil_free _ Hlive) as Hsplice.
  revert Hlive Hsplice.
  destruct (filter is_Some vs) as [|v [|v' live]]; intros Hlive Hsplice; [done| |].
  - by apply Forall_cons in Hlive as [? _].
  - exact Hsplice.
Qed.

Lemma constructible_nil_free (v : Validator T E W) :
  constructible v -> is_Some v -> nil_free v = true.
Proof.
  induction 1 as [|fn|validate| |fs|vs _ IH]; intros Hsome;
    [by destruct Hsome|done|done|done| |].
  - apply New_nil_free.
  - by apply Join_nil_free.
Qed.

Lemma constructibleContext_nil_free (v : ContextValidator Ctx T E W) :
  constructibleContext v -> is_Some v -> nil_freeContext v = true.
Proof.
  induction 1 as [|fn|validate| |fs|vs _ IH]; intros Hsome;
    [by destruct Hsome|done|done|done| |].
  - apply NewContext_nil_free.
  - by apply JoinContext_nil_free.
Qed.

(** X7. The factories never return a nil interface value, and checking a
    checker that a client built (from conversions to [Func], types of its
    own, the No-op checker, [New] and [Join], in any nesting and with nil
    entries anywhere in the inputs) never calls through a nil member:
    [Validate] returns, for every value and in every world. *)
Theorem built_checkers_never_panic :
  (forall fs : list (option (RawFunc T E W)), is_Some (New fs)) /\
  (forall vs : list (Validator T E W), is_Some (Join vs)) /\
  (forall v : Validator T E W,
     constructible v -> is_Some v ->
     forall value w, is_Some (Validate v value w)) /\
  (forall fs : list (option (RawContextFunc Ctx T E W)), is_Some (NewContext fs)) /\
  (forall vs : list (ContextValidator Ctx T E W), is_Some (JoinContext vs)) /\
  (forall v : ContextValidator Ctx T E W,
     constructibleContext v -> is_Some v ->
     forall ctx value w, is_Some (ValidateContext v ctx value w)).
Proof.
  split_and!.
  - intros fs. rewrite New_unfold.
    destruct (filter is_Some fs) as [|fn [|fn' live]]; by eexists.
  - intros vs. rewrite Join_unfold. pose proof (filter_is_Some_Forall vs) as Hsome.
    revert Hsome. destruct (filter is_Some vs) as [|v [|v' live]]; intros Hsome;
      try by eexists.
    by apply Forall_cons in Hsome as [? _].
  - intros v Hv Hsome value w. pose proof (constructible_nil_free v Hv Hsome) as Hfree.
    destruct v as [d|]; [|by destruct Hsome]. by apply Validate_impl_total.
  - intros fs. rewrite NewContext_unfold.
    destruct (filter is_Some fs) as [|fn [|fn' live]]; by eexists.
  - intros vs. rewrite JoinContext_unfold.
    pose proof (filter_is_Some_Forall vs) as Hsome.
    revert Hsome. destruct (filter is_Some vs) as [|v [|v' live]]; intros Hsome;
      try by eexists.
    by apply Forall_cons in Hsome as [? _].
  - intros v Hv Hsome ctx value w.
    pose proof (constructibleContext_nil_free v Hv Hsome) as Hfree.
    destruct v as [d|]; [|by destruct Hsome]. by apply ValidateContext_impl_total.
Qed.
End NoPanic.

Lemma built_checkers_never_panic_witness :
  is_Some (Validate (Join [New [pass 1; fail_with 2 7]; None;
                           Join [leaf (pass 3); NoOp]])
                    5 []) /\
  is_Some (ValidateContext
             (JoinContext [NewContext [passContext 1; cancelled_with 2 9]; None;
                           leafContext (passContext 3)])
             true 5 []).
Proof.
  destruct (@built_checkers_never_panic bool nat nat Log)
    as (_ & _ & Hplain & _ & _ & Hcontext).
  split.
  - apply Hplain; [|by eexists].
    apply constructible_Join. intros v Hv.
    apply elem_of_cons in Hv as [->|Hv]; [apply constructible_New|].
    apply elem_of_cons in Hv as [->|Hv]; [apply constructible_nil|].
    apply list_elem_of_singleton in Hv as ->.
    apply constructible_Join. intros v Hv.
    apply elem_of_cons in Hv as [->|Hv]; [apply constructible_Func|].
    apply list_elem_of_singleton in Hv as ->. apply constructible_NoOp.
  - apply Hcontext; [|by eexists].
    apply constructibleContext_Join. intros v Hv.
    apply elem_of_cons in Hv as [->|Hv]; [apply constructibleContext_New|].
    apply elem_of_cons in Hv as [->|Hv]; [apply constructibleContext_nil|].
    apply list_elem_of_singleton in Hv as ->. apply constructibleContext_Func.
Defined.

(** ** The verdict of a built checker *)

Section Verdicts.
Context {Ctx T E W : Type}.

Lemma call_each_Join_splice (live : list (Validator T E W)) value w rs w' :
  call_each live value w = Some (rs, w') ->
  exists rs', call_each (live ≫= Join_splice) value w = Some (rs', w') /\
              (Forall (fun r => r = None) rs' <-> Forall (fun r => r = None) rs).
Proof.
  revert w rs; induction live as [|v live IH]; intros w rs; simpl.
  - intros [= <- <-]. by exists [].
  - destruct (Validate v value w) as [[r w1]|] eqn:Hv; [|done].
    destruct (call_each live value w1) as [[rs0 w2]|] eqn:Hrest; [|done].
    intros [= <- <-]. destruct (IH _ _ Hrest) as (rs0' & Hrun & Hiff).
    assert (Hone : exists rsv, call_each (Join_splice v) value w = Some (rsv, w1) /\
                               (Forall (fun r => r = None) rsv <-> r = None)).
    { destruct v as [[fn|ms|ms| |validate]|]; try done.
      2:{ unfold Join_splice, Join_step. rewrite app_nil_l.
          rewrite Validate_multiValidator, multiValidator_Validate_call_each in Hv.
          destruct (call_each ms value w) as [[rsm wm]|]; [|done].
          injection Hv as <- <-. exists rsm. split; [done|].
          symmetry. apply errors_Join_success_iff. }
      all: exists [r]; unfold Join_splice, Join_step; rewrite app_nil_l;
        cbn [call_each]; rewrite Hv; split; [done|];
        split; [by intros [? _]%Forall_cons|by intros ->; repeat constructor]. }
    destruct Hone as (rsv & Hrunv & Hiffv).
    exists (rsv ++ rs0').
    change (list_bind _ _ Join_splice live) with (live ≫= Join_splice).
    rewrite call_each_app, Hrunv, Hrun. split; [done|].
    rewrite Forall_app, Forall_cons. by rewrite Hiffv, Hiff.
Qed.

Lemma callContext_each_JoinContext_splice
    (live : list (ContextValidator Ctx T E W)) ctx value w rs w' :
  callContext_each live ctx value w = Some (rs, w') ->
  exists rs',
    callContext_each (live ≫= JoinContext_splice) ctx value w = Some (rs', w') /\
    (Forall (fun r => r = None) rs' <-> Forall (fun r => r = None) rs).
Proof.
  revert w rs; induction live as [|v live IH]; intros w rs; simpl.
  - intros [= <- <-]. by exists [].
  - destruct (ValidateContext v ctx value w) as [[r w1]|] eqn:Hv; [|done].
    destruct (callContext_each live ctx value w1) as [[rs0 w2]|] eqn:Hrest; [|done].
    intros [= <- <-]. destruct (IH _ _ Hrest) as (rs0' & Hrun & Hiff).
    assert (Hone : exists rsv,
               callContext_each (JoinContext_splice v) ctx value w = Some (rsv, w1) /\
               (Forall (fun r => r = None) rsv <-> r = None)).
    { destruct v as [[fn|ms| |validate]|]; try done.
      2:{ unfold JoinContext_splice, JoinContext_step. simpl.
          rewrite ValidateContext_multiContextValidator,
            multiContextValidator_Validate_call_each in Hv.
          destruct (callContext_each ms ctx value w) as [[rsm wm]|]; [|done].
          injection Hv as <- <-. exists rsm. split; [done|].
          symmetry. apply errors_Join_success_iff. }
      all: exists [r]; unfold JoinContext_splice, JoinContext_step;
        cbn [JoinContext_switch app callContext_each]; rewrite Hv; split; [done|];
        split; [by intros [? _]%Forall_cons|by intros ->; repeat constructor]. }
    destruct Hone as (rsv & Hrunv & Hiffv).
    exists (rsv ++ rs0').
    change (list_bind _ _ JoinContext_splice live)
      with (live ≫= JoinContext_splice).
    rewrite callContext_each_app, Hrunv, Hrun. split; [done|].
    rewrite Forall_app, Forall_cons. by rewrite Hiffv, Hiff.
Qed.

(** X9. Joining keeps the verdict and the effects. If calling the
    checkers of the input that are not nil, one after the other, returns
    [rs] and leaves the world [w'], then checking their join returns too,
    leaves the same world [w'], and succeeds exactly when every one of
    them succeeds. This holds in the plain flavour as well, where a
    nested result of [Join] is kept as one member. *)
Theorem Join_keeps_verdict :
  (forall (vs : list (Validator T E W)) value w rs w',
     call_each (filter is_Some vs) value w = Some (rs, w') ->
     exists r, Validate (Join vs) value w = Some (r, w') /\
               (r = None <-> Forall (fun x => x = None) rs)) /\
  (forall (vs : list (ContextValidator Ctx T E W)) ctx value w rs w',
     callContext_each (filter is_Some vs) ctx value w = Some (rs, w') ->
     exists r, ValidateContext (JoinContext vs) ctx value w = Some (r, w') /\
               (r = None <-> Forall (fun x => x = None) rs)).
Proof.
  split.
  - intros vs value w rs w'. rewrite Join_unfold.
    destruct (filter is_Some vs) as [|v [|v' live]].
    + intros [= <- <-]. by exists None.
    + simpl. destruct (Validate v value w) as [[r w1]|]; [|done].
      intros [= <- <-]. exists r. split; [done|].
      split; [by intros ->; repeat constructor|by intros [? _]%Forall_cons].
    + intros Hrun. destruct (call_each_Join_splice _ _ _ _ _ Hrun) as (rs' & Hrun' & Hiff).
      rewrite Validate_ptrMultiValidator, multiValidator_Validate_call_each, Hrun'.
      eexists; split; [done|]. by rewrite errors_Join_success_iff.
  - intros vs ctx value w rs w'. rewrite JoinContext_unfold.
    destruct (filter is_Some vs) as [|v [|v' live]].
    + intros [= <- <-]. by exists None.
    + simpl. destruct (ValidateContext v ctx value w) as [[r w1]|]; [|done].
      intros [= <- <-]. exists r. split; [done|].
      split; [by intros ->; repeat constructor|by intros [? _]%Forall_cons].
    + intros Hrun.
      destruct (callContext_each_JoinContext_splice _ _ _ _ _ _ Hrun)
        as (rs' & Hrun' & Hiff).
      rewrite ValidateContext_multiContextValidator,
        multiContextValidator_Validate_call_each, Hrun'.
      eexists; split; [done|]. by rewrite errors_Join_success_iff.
Qed.

(** X10. Checking what [New] returns calls the functions of the input
    that are not nil, each once, in input order and on the same value,
    and nothing else: it always returns, leaves the world these calls
    leave, and succeeds exactly when all of them succeed. With one
    function left, the outcome is that function's own result, untouched. *)
Theorem New_runs_the_functions :
  (forall (fs : list (option (RawFunc T E W))) value w,
     exists rs w' r,
       call_each ((fun fn => Some (Func fn)) <$> filter is_Some fs) value w
       = Some (rs, w') /\
       Validate (New fs) value w = Some (r, w') /\
       (r = None <-> Forall (fun x => x = None) rs) /\
       (forall f, filter is_Some fs = [Some f] -> (r, w') = f value w)) /\
  (forall (fs : list (option (RawContextFunc Ctx T E W))) ctx value w,
     exists rs w' r,
       callContext_each ((fun fn => Some (ContextFunc fn)) <$> filter is_Some fs)
                        ctx value w
       = Some (rs, w') /\
       ValidateContext (NewContext fs) ctx value w = Some (r, w') /\
       (r = None <-> Forall (fun x => x = None) rs) /\
       (forall f, filter is_Some fs = [Some f] -> (r, w') = f ctx value w)).
Proof.
  split.
  - intros fs value w. rewrite New_unfold.
    destruct (call_each_total ((fun fn => Some (Func fn)) <$> filter is_Some fs)
                value w (forallb_nil_free_leaves _)) as [[rs w'] Hrun].
    exists rs, w'. revert Hrun.
    destruct (filter is_Some fs) as [|fn [|fn' live]]; intros Hrun.
    + injection Hrun as <- <-. by exists None.
    + simpl in Hrun. destruct (Func_Validate fn value w) as [r w1] eqn:Hfn.
      injection Hrun as <- <-. exists r. split_and!; [simpl; by rewrite Hfn| | |].
      * change (Some (Func_Validate fn value w) = Some (r, w1)). by rewrite Hfn.
      * split; [by intros ->; repeat constructor|by intros [? _]%Forall_cons].
      * intros f [= ->]. by rewrite <- Hfn.
    + eexists. split_and!; [done| | |done].
      * by rewrite Validate_multiValidator, multiValidator_Validate_call_each, Hrun.
      * apply errors_Join_success_iff.
  - intros fs ctx value w. rewrite NewContext_unfold.
    destruct (callContext_each_total
                ((fun fn => Some (ContextFunc fn)) <$> filter is_Some fs)
                ctx value w (forallb_nil_freeContext_leaves _)) as [[rs w'] Hrun].
    exists rs, w'. revert Hrun.
    destruct (filter is_Some fs) as [|fn [|fn' live]]; intros Hrun.
    + injection Hrun as <- <-. by exists None.
    + simpl in Hrun. destruct (ContextFunc_Validate fn ctx value w) as [r w1] eqn:Hfn.
      injection Hrun as <- <-. exists r. split_and!; [simpl; by rewrite Hfn| | |].
      * change (Some (ContextFunc_Validate fn ctx value w) = Some (r, w1)).
        by rewrite Hfn.
      * split; [by intros ->; repeat constructor|by intros [? _]%Forall_cons].
      * intros f [= ->]. by rewrite <- Hfn.
    + eexists. split_and!; [done| | |done].
      * by rewrite ValidateContext_multiContextValidator,
          multiContextValidator_Validate_call_each, Hrun.
      * apply errors_Join_success_iff.
Qed.
End Verdicts.

Lemma Join_keeps_verdict_witness :
  (exists r,
     Validate (Join [Join [leaf (fail_with 1 7); leaf (pass 2)]; None; leaf (pass 3)])
              5 []
     = Some (r, [(1, 5); (2, 5); (3, 5)]) /\
     (r = None <->
      Forall (fun x => x = None) [Some (joinError [UserError 7]); None])) /\
  (exists r,
     ValidateContext (JoinContext [NewContext [passContext 1; cancelled_with 2 9];
                                   None; leafContext (passContext 3)])
                     false 5 []
     = Some (r, [(1, 5); (2, 5); (3, 5)]) /\
     (r = None <-> Forall (fun x => x = None) [@None (errorValue nat); None])).
Proof.
  destruct (@Join_keeps_verdict bool nat nat Log) as [Hplain Hcontext].
  split.
  - by apply (Hplain [Join [leaf (fail_with 1 7); leaf (pass 2)]; None;
                      leaf (pass 3)] 5 []).
  - by apply (Hcontext [NewContext [passContext 1; cancelled_with 2 9]; None;
                        leafContext (passContext 3)] false 5 []).
Defined.

Lemma New_runs_the_functions_witness :
  Validate (New [None; fail_with 1 7; None]) 5 []
  = Some (Some (UserError 7), [(1, 5)]) /\
  ValidateContext (NewContext [cancelled_with 1 9; None]) true 5 []
  = Some (Some (UserError 9), [(1, 5)]).
Proof.
  destruct (@New_runs_the_functions bool nat nat Log) as [Hplain Hcontext].
  split.
  - destruct (Hplain [None; fail_with 1 7; None] 5 [])
      as (rs & w' & r & _ & -> & _ & Hone).
    by rewrite (Hone (probe 1 (Some (UserError 7))) eq_refl).
  - destruct (Hcontext [cancelled_with 1 9; None] true 5 [])
      as (rs & w' & r & _ & -> & _ & Hone).
    by rewrite (Hone (probeContext 1 (fun cancelled : bool =>
                                        if cancelled then Some (UserError 9)
                                        else None)) eq_refl).
Defined.

(** ** What the tests observe *)

Section TestFacts.
Context {Ctx E W : Type}.

Lemma requireEqual_true (b : bool) : requireEqual true b = b.
Proof. by destruct b. Qed.

Lemma requireEqual_false (b : bool) : requireEqual false b = negb b.
Proof. by destruct b. Qed.

(** X12. A subtest of [TestNew] never panics, and it passes exactly in
    these cases, [k] being the number of functions of the input that are
    not nil: [k = 0] and [isNoOp] set; [k = 1] and [isNoOp] not set
    ([wantsLen] is not looked at); [k >= 2] and [wantsLen = k] ([isNoOp]
    is not looked at). *)
Theorem TestNew_subtest_passes_iff
    (input : list (option (RawFunc testConfig E W)))
    (isNoOp : bool) (wantsLen : Z) (w : W) :
  TestNew_subtest input isNoOp wantsLen w
  = Some (match length (filter is_Some input) with
          | 0 => isNoOp
          | 1 => negb isNoOp
          | k => bool_decide (wantsLen = Z.of_nat k)
          end).
Proof.
  unfold TestNew_subtest.
  pose proof (New_nil_free input) as Hfree. revert Hfree. rewrite New_unfold.
  destruct (filter is_Some input) as [|fn [|fn' live]]; intros Hfree.
  - by rewrite requireEqual_true.
  - by rewrite requireEqual_false.
  - destruct (Validate_impl_total _ Hfree tt w) as [out Hout].
    cbn [Validate]. rewrite Hout. unfold requireEqual.
    by rewrite length_fmap.
Qed.

(** X13. With two or more checkers of the input not nil, a subtest of
    [TestJoin] never compares [wantsLen] with anything: unless the check
    panics, it passes exactly when [isNoOp] is not set, whatever
    [wantsLen] is. The same subtest of [TestJoinContext] passes exactly
    when [wantsLen] is the number of members of the joined Aggregate. *)
Theorem TestJoin_subtest_ignores_wantsLen :
  (forall (input : list (Validator testConfig E W)) isNoOp wantsLen w,
     2 <= length (filter is_Some input) ->
     TestJoin_subtest input isNoOp wantsLen w
     = (fun _ => negb isNoOp) <$> Validate (Join input) tt w) /\
  (forall (background : Ctx) (input : list (ContextValidator Ctx testConfig E W))
          isNoOp wantsLen w,
     2 <= length (filter is_Some input) ->
     TestJoinContext_subtest background input isNoOp wantsLen w
     = (fun _ => bool_decide
                   (wantsLen
                    = Z.of_nat (length (filter is_Some input ≫= JoinContext_splice))))
       <$> ValidateContext (JoinContext input) background tt w).
Proof.
  split.
  - intros input isNoOp wantsLen w. unfold TestJoin_subtest. rewrite Join_unfold.
    destruct (filter is_Some input) as [|v [|v' live]]; intros Hk;
      simpl in Hk; try lia.
    cbv zeta. destruct (@Validate testConfig E W _ tt w); [|done].
    cbn [fmap option_fmap option_map]. by rewrite requireEqual_false.
  - intros background input isNoOp wantsLen w. unfold TestJoinContext_subtest.
    rewrite JoinContext_unfold.
    destruct (filter is_Some input) as [|v [|v' live]]; intros Hk;
      simpl in Hk; try lia.
    cbv zeta. by destruct (@ValidateContext Ctx testConfig E W _ background tt w).
Qed.
End TestFacts.

Lemma TestJoin_subtest_ignores_wantsLen_witness :
  (let f : Validator testConfig nat unit :=
     Some (Func (Some (fun _ w => (None, w)))) in
   TestJoin_subtest [Join [f; f; f]; None; f; None; f; None] false 5 tt = Some true /\
   TestJoin_subtest [Join [f; f; f]; None; f; None; f; None] false 3 tt = Some true) /\
  (let f : ContextValidator unit testConfig nat unit :=
     Some (ContextFunc (Some (fun _ _ w => (None, w)))) in
   TestJoinContext_subtest tt [JoinContext [f; f; f]; None; f; None; f; None]
                           false 5 tt = Some true /\
   TestJoinContext_subtest tt [JoinContext [f; f; f]; None; f; None; f; None]
                           false 3 tt = Some false).
Proof.
  destruct (@TestJoin_subtest_ignores_wantsLen unit nat unit) as [Hplain Hcontext].
  split; intros f; split.
  - rewrite Hplain; [reflexivity|vm_compute; lia].
  - rewrite Hplain; [reflexivity|vm_compute; lia].
  - rewrite Hcontext; [reflexivity|vm_compute; lia].
  - rewrite Hcontext; [reflexivity|vm_compute; lia].
Defined.
